(** * Even Realities G1 protocol engine: a shallow embedding

    The repository carries two copies of the [EvenRealitiesG1Manager]
    controller: [src/contoller/glasses2.ts] (module [G2] below) and an earlier
    copy of the same class (module [P2] below, file [unnamed/part_002]).  The
    methods that are textually identical in both copies are embedded once, at
    top level; the methods that differ are embedded once per copy. *)

From Stdlib Require Import String Ascii ZArith List Lia Bool.
Import ListNotations.
Local Open Scope Z_scope.

(** ** JavaScript number primitives

    JavaScript numbers that hold integers are modelled by [Z].  The bitwise
    operators first convert their operands with [ToInt32] (or [ToUint32] for
    the left operand of [>>>]), and a store into a [Uint8Array] keeps the value
    modulo 256. *)
Module JS.

Definition ToInt32 (z : Z) : Z := (z + 2 ^ 31) mod 2 ^ 32 - 2 ^ 31.
Definition ToUint32 (z : Z) : Z := z mod 2 ^ 32.
Definition ToUint8 (z : Z) : Z := z mod 256.

(** [a & b], [a | b], [a ^ b], [~a]: the result is a signed 32-bit integer. *)
Definition band (a b : Z) : Z := ToInt32 (Z.land (ToInt32 a) (ToInt32 b)).
Definition bor (a b : Z) : Z := ToInt32 (Z.lor (ToInt32 a) (ToInt32 b)).
Definition bxor (a b : Z) : Z := ToInt32 (Z.lxor (ToInt32 a) (ToInt32 b)).
Definition bnot (a : Z) : Z := ToInt32 (Z.lnot (ToInt32 a)).

(** [a << n], [a >> n], [a >>> n] *)
Definition shl (a n : Z) : Z := ToInt32 (Z.shiftl (ToInt32 a) (ToUint32 n mod 32)).
Definition sar (a n : Z) : Z := Z.shiftr (ToInt32 a) (ToUint32 n mod 32).
Definition shr (a n : Z) : Z := Z.shiftr (ToUint32 a) (ToUint32 n mod 32).

(** A number used as a condition is true unless it is zero. *)
Definition truthy (z : Z) : bool := negb (z =? 0).

(** An operand that is [undefined] (an index past the end of a typed array)
    converts to 0 under a bitwise operator. *)
Definition operand (v : option Z) : Z :=
  match v with Some z => z | None => 0 end.

End JS.

(** ** Arrays

    A [Uint8Array] is a list of byte values; [wf_bytes] says that every element
    is a byte.  [slice a i j] is [a.slice(i, j)] for [0 <= i <= j]. *)
Definition Uint8Array := list Z.

Definition wf_bytes (a : Uint8Array) : Prop := Forall (fun b => 0 <= b < 256) a.

Definition slice {A : Type} (a : list A) (i j : nat) : list A :=
  firstn (j - i) (skipn i a).

(** [new Uint8Array([v0, v1, ...])]: each value is stored modulo 256. *)
Definition u8_of (vs : list Z) : Uint8Array := map JS.ToUint8 vs.

(** [a[i] = v] on a typed array: a store past the end is ignored. *)
Fixpoint u8_set (a : Uint8Array) (i : nat) (v : Z) : Uint8Array :=
  match a, i with
  | [], _ => []
  | _ :: r, O => JS.ToUint8 v :: r
  | x :: r, S i' => x :: u8_set r i' v
  end.

(** The indices visited by [for (let i = start; i < len; i += step)].  The
    loop is run with fuel; [len] units of fuel are enough when [step >= 1]. *)
Fixpoint for_range (step fuel i len : nat) : list nat :=
  match fuel with
  | O => []
  | S fuel' =>
      if (i <? len)%nat then i :: for_range step fuel' (i + step) len else []
  end.

Definition for_from_zero (step len : nat) : list nat := for_range step len 0 len.

(** ** Strings

    A JavaScript string is its sequence of UTF-16 code units. *)
Definition JsString := list Z.

Definition js (s : string) : JsString :=
  map (fun c => Z.of_N (N_of_ascii c)) (list_ascii_of_string s).

Definition SPACE : Z := 32.
Definition NEWLINE : Z := 10.

(** A string used as a condition is true unless it is empty. *)
Definition nonempty (s : JsString) : bool :=
  match s with [] => false | _ :: _ => true end.

(** [text.split(' ')] *)
Fixpoint split_space (s : JsString) : list JsString :=
  match s with
  | [] => [[]]
  | c :: r =>
      if c =? SPACE then [] :: split_space r
      else match split_space r with
           | w :: ws => (c :: w) :: ws
           | [] => [[c]]
           end
  end.

(** [lines.join('\n')] *)
Fixpoint join_newline (lines : list JsString) : JsString :=
  match lines with
  | [] => []
  | [l] => l
  | l :: rest => l ++ NEWLINE :: join_newline rest
  end.

(** [new TextEncoder().encode(s)]: UTF-8, a surrogate pair becomes one
    four-byte sequence and a lone surrogate becomes U+FFFD. *)
Definition utf8_3 (c : Z) : list Z :=
  [224 + c / 4096; 128 + (c / 64) mod 64; 128 + c mod 64].

Fixpoint encode (s : JsString) : Uint8Array :=
  match s with
  | [] => []
  | c :: r =>
      if c <? 128 then c :: encode r
      else if c <? 2048 then (192 + c / 64) :: (128 + c mod 64) :: encode r
      else if (55296 <=? c) && (c <=? 56319) then
        match r with
        | d :: r' =>
            if (56320 <=? d) && (d <=? 57343) then
              let cp := 65536 + (c - 55296) * 1024 + (d - 56320) in
              (240 + cp / 262144) :: (128 + (cp / 4096) mod 64)
                :: (128 + (cp / 64) mod 64) :: (128 + cp mod 64) :: encode r'
            else utf8_3 65533 ++ encode r
        | [] => utf8_3 65533
        end
      else if (56320 <=? c) && (c <=? 57343) then utf8_3 65533 ++ encode r
      else utf8_3 c ++ encode r
  end.

(** ** TextPaginator ([splitTextIntoLines], [splitIntoScreens]) *)

(** [n * (21 * 0.6) <= 488] for a string length [n].  The double [21 * 0.6]
    is the double nearest to 12.6 and no product [n * 12.6] lies within 2 of
    488, so the test is the exact comparison [n * 126 <= 4880]. *)
Definition fits (n : nat) : bool := (Z.of_nat n * 126 <=? 4880).

(** One iteration of [for (const word of words)]; the state is
    [(lines, currentLine)]. *)
Definition line_step (st : list JsString * JsString) (word : JsString)
  : list JsString * JsString :=
  let '(lines, currentLine) := st in
  let testLine :=
    if nonempty currentLine then currentLine ++ SPACE :: word else word in
  if fits (length testLine) then (lines, testLine)
  else if nonempty currentLine then (lines ++ [currentLine], word)
  else (lines ++ [word], currentLine).

Definition splitTextIntoLines (text : JsString) : list JsString :=
  let words := split_space text in
  let '(lines, currentLine) := fold_left line_step words ([], []) in
  if nonempty currentLine then lines ++ [currentLine] else lines.

Definition splitIntoScreens (lines : list JsString) : list (list JsString) :=
  map (fun i => slice lines i (i + 5)) (for_from_zero 5 (length lines)).

(** [createTextPackets]: the UTF-8 bytes of the joined lines in chunks of
    [194 - 10] bytes. *)
Definition createTextPackets (lines : list JsString) : list Uint8Array :=
  let textBytes := encode (join_newline lines) in
  map (fun i => slice textBytes i (i + (194 - 10)))
      (for_from_zero (194 - 10) (length textBytes)).

(** ** Session state and effects

    The transport collaborator is modelled by what the controller can observe
    of it: a characteristic is the outcome of its [writeWithResponse] on a
    given payload, a device is the outcome of its [cancelConnection].  The
    base64 coding applied on the way to and from the transport is a bijection
    on byte sequences and is left out: payloads are byte arrays throughout.
    Timers and [console] output have no modelled effect.  Each method runs to
    completion before the next one starts. *)
Inductive Endpoint : Type := LeftArm | RightArm.

Record Characteristic : Type := { writeWithResponse : Uint8Array -> bool }.

Record Device : Type := { cancelConnection : bool }.

Record BatteryInfo : Type := {
  percentage : Z;
  isCharging : bool;
  voltage : option Z
}.

Record DeviceFlags : Type := {
  isInCase : bool;
  isCaseOpen : bool;
  isGlassesWorn : bool;
  isGlassesInBox : bool;
  isGlassesCharging : bool;
  isInSilentMode : bool
}.

(** Observers are opaque callbacks; a registered callback is represented by an
    identifier and each call to it is recorded in the trace. *)
Inductive Effect : Type :=
| Write (e : Endpoint) (data : Uint8Array)
| DeviceEventCallback (cb : nat) (type : Z) (data : Uint8Array)
| BatteryUpdateCallback (cb : nat) (battery : BatteryInfo) (isLeft : bool).

Record Manager : Type := {
  leftDevice : option Device;
  rightDevice : option Device;
  leftTxCharacteristic : option Characteristic;
  rightTxCharacteristic : option Characteristic;
  isConnected : bool;
  heartbeatInterval : bool;
  sequenceNumber : Z;
  heartbeatSequence : Z;
  flags : DeviceFlags;
  onDeviceEventCallbacks : list nat;
  onBatteryUpdateCallbacks : list nat
}.

(** The field initialisers of the class. *)
Definition new_manager : Manager := {|
  leftDevice := None;
  rightDevice := None;
  leftTxCharacteristic := None;
  rightTxCharacteristic := None;
  isConnected := false;
  heartbeatInterval := false;
  sequenceNumber := 0;
  heartbeatSequence := 0;
  flags := {| isInCase := false; isCaseOpen := false; isGlassesWorn := false;
              isGlassesInBox := false; isGlassesCharging := false;
              isInSilentMode := false |};
  onDeviceEventCallbacks := [];
  onBatteryUpdateCallbacks := []
|}.

Definition set_leftDevice (d : option Device) (m : Manager) : Manager :=
  {| leftDevice := d; rightDevice := rightDevice m;
     leftTxCharacteristic := leftTxCharacteristic m;
     rightTxCharacteristic := rightTxCharacteristic m;
     isConnected := isConnected m; heartbeatInterval := heartbeatInterval m;
     sequenceNumber := sequenceNumber m; heartbeatSequence := heartbeatSequence m;
     flags := flags m; onDeviceEventCallbacks := onDeviceEventCallbacks m;
     onBatteryUpdateCallbacks := onBatteryUpdateCallbacks m |}.

Definition set_rightDevice (d : option Device) (m : Manager) : Manager :=
  {| leftDevice := leftDevice m; rightDevice := d;
     leftTxCharacteristic := leftTxCharacteristic m;
     rightTxCharacteristic := rightTxCharacteristic m;
     isConnected := isConnected m; heartbeatInterval := heartbeatInterval m;
     sequenceNumber := sequenceNumber m; heartbeatSequence := heartbeatSequence m;
     flags := flags m; onDeviceEventCallbacks := onDeviceEventCallbacks m;
     onBatteryUpdateCallbacks := onBatteryUpdateCallbacks m |}.

Definition set_characteristics (l r : option Characteristic) (m : Manager)
  : Manager :=
  {| leftDevice := leftDevice m; rightDevice := rightDevice m;
     leftTxCharacteristic := l; rightTxCharacteristic := r;
     isConnected := isConnected m; heartbeatInterval := heartbeatInterval m;
     sequenceNumber := sequenceNumber m; heartbeatSequence := heartbeatSequence m;
     flags := flags m; onDeviceEventCallbacks := onDeviceEventCallbacks m;
     onBatteryUpdateCallbacks := onBatteryUpdateCallbacks m |}.

Definition set_isConnected (b : bool) (m : Manager) : Manager :=
  {| leftDevice := leftDevice m; rightDevice := rightDevice m;
     leftTxCharacteristic := leftTxCharacteristic m;
     rightTxCharacteristic := rightTxCharacteristic m;
     isConnected := b; heartbeatInterval := heartbeatInterval m;
     sequenceNumber := sequenceNumber m; heartbeatSequence := heartbeatSequence m;
     flags := flags m; onDeviceEventCallbacks := onDeviceEventCallbacks m;
     onBatteryUpdateCallbacks := onBatteryUpdateCallbacks m |}.

Definition set_heartbeatInterval (b : bool) (m : Manager) : Manager :=
  {| leftDevice := leftDevice m; rightDevice := rightDevice m;
     leftTxCharacteristic := leftTxCharacteristic m;
     rightTxCharacteristic := rightTxCharacteristic m;
     isConnected := isConnected m; heartbeatInterval := b;
     sequenceNumber := sequenceNumber m; heartbeatSequence := heartbeatSequence m;
     flags := flags m; onDeviceEventCallbacks := onDeviceEventCallbacks m;
     onBatteryUpdateCallbacks := onBatteryUpdateCallbacks m |}.

Definition set_sequenceNumber (n : Z) (m : Manager) : Manager :=
  {| leftDevice := leftDevice m; rightDevice := rightDevice m;
     leftTxCharacteristic := leftTxCharacteristic m;
     rightTxCharacteristic := rightTxCharacteristic m;
     isConnected := isConnected m; heartbeatInterval := heartbeatInterval m;
     sequenceNumber := n; heartbeatSequence := heartbeatSequence m;
     flags := flags m; onDeviceEventCallbacks := onDeviceEventCallbacks m;
     onBatteryUpdateCallbacks := onBatteryUpdateCallbacks m |}.

Definition set_flags (f : DeviceFlags) (m : Manager) : Manager :=
  {| leftDevice := leftDevice m; rightDevice := rightDevice m;
     leftTxCharacteristic := leftTxCharacteristic m;
     rightTxCharacteristic := rightTxCharacteristic m;
     isConnected := isConnected m; heartbeatInterval := heartbeatInterval m;
     sequenceNumber := sequenceNumber m; heartbeatSequence := heartbeatSequence m;
     flags := f; onDeviceEventCallbacks := onDeviceEventCallbacks m;
     onBatteryUpdateCallbacks := onBatteryUpdateCallbacks m |}.

Definition set_callbacks (dev bat : list nat) (m : Manager) : Manager :=
  {| leftDevice := leftDevice m; rightDevice := rightDevice m;
     leftTxCharacteristic := leftTxCharacteristic m;
     rightTxCharacteristic := rightTxCharacteristic m;
     isConnected := isConnected m; heartbeatInterval := heartbeatInterval m;
     sequenceNumber := sequenceNumber m; heartbeatSequence := heartbeatSequence m;
     flags := flags m; onDeviceEventCallbacks := dev;
     onBatteryUpdateCallbacks := bat |}.

Definition with_worn (b : bool) (f : DeviceFlags) : DeviceFlags :=
  {| isInCase := isInCase f; isCaseOpen := isCaseOpen f; isGlassesWorn := b;
     isGlassesInBox := isGlassesInBox f; isGlassesCharging := isGlassesCharging f;
     isInSilentMode := isInSilentMode f |}.

Definition with_silent (b : bool) (f : DeviceFlags) : DeviceFlags :=
  {| isInCase := isInCase f; isCaseOpen := isCaseOpen f;
     isGlassesWorn := isGlassesWorn f; isGlassesInBox := isGlassesInBox f;
     isGlassesCharging := isGlassesCharging f; isInSilentMode := b |}.

Definition with_case (inCase caseOpen : bool) (f : DeviceFlags) : DeviceFlags :=
  {| isInCase := inCase; isCaseOpen := caseOpen;
     isGlassesWorn := isGlassesWorn f; isGlassesInBox := isGlassesInBox f;
     isGlassesCharging := isGlassesCharging f;
     isInSilentMode := isInSilentMode f |}.

Definition with_charging (b : bool) (f : DeviceFlags) : DeviceFlags :=
  {| isInCase := isInCase f; isCaseOpen := isCaseOpen f;
     isGlassesWorn := isGlassesWorn f; isGlassesInBox := isGlassesInBox f;
     isGlassesCharging := b; isInSilentMode := isInSilentMode f |}.

(** ** The monad of controller methods

    A method maps the session state to an outcome (the promise resolves with a
    value, or rejects), the new state and the trace of effects it caused. *)
Inductive Outcome (A : Type) : Type :=
| Resolved (a : A)
| Rejected.
Arguments Resolved {A} a.
Arguments Rejected {A}.

Definition M (A : Type) : Type := Manager -> Outcome A * Manager * list Effect.

Definition ret {A : Type} (a : A) : M A := fun m => (Resolved a, m, []).

Definition throw {A : Type} : M A := fun m => (Rejected, m, []).

Definition bind {A B : Type} (c : M A) (k : A -> M B) : M B := fun m =>
  match c m with
  | (Resolved a, m1, t1) => let '(o, m2, t2) := k a m1 in (o, m2, t1 ++ t2)
  | (Rejected, m1, t1) => (Rejected, m1, t1)
  end.

Notation "x <- c1 ;; c2" := (bind c1 (fun x => c2))
  (at level 61, c1 at next level, right associativity).
Notation "c1 ;; c2" := (bind c1 (fun _ => c2))
  (at level 61, right associativity).

Definition get : M Manager := fun m => (Resolved m, m, []).

Definition modify (f : Manager -> Manager) : M unit :=
  fun m => (Resolved tt, f m, []).

Definition emit (e : Effect) : M unit := fun m => (Resolved tt, m, [e]).

(** [try { c } catch (error) { handler }] *)
Definition try_catch {A : Type} (c handler : M A) : M A := fun m =>
  match c m with
  | (Rejected, m1, t1) => let '(o, m2, t2) := handler m1 in (o, m2, t1 ++ t2)
  | r => r
  end.

(** A call whose promise is dropped: a rejection goes unobserved. *)
Definition not_awaited {A : Type} (c : M A) : M unit := fun m =>
  let '(_, m1, t1) := c m in (Resolved tt, m1, t1).

Fixpoint for_each {A : Type} (f : A -> M unit) (l : list A) : M unit :=
  match l with
  | [] => ret tt
  | x :: r => f x ;; for_each f r
  end.

Definition indexed {A : Type} (l : list A) : list (nat * A) :=
  combine (seq 0 (length l)) l.

Definition outcome {A : Type} (r : Outcome A * Manager * list Effect)
  : Outcome A := fst (fst r).
Definition final {A : Type} (r : Outcome A * Manager * list Effect)
  : Manager := snd (fst r).
Definition trace {A : Type} (r : Outcome A * Manager * list Effect)
  : list Effect := snd r.

(** ** Protocol constants *)
Module COMMANDS.
Definition SET_BRIGHTNESS : Z := 0x01.
Definition SEND_BITMAP : Z := 0x15.
Definition CLEAR_SCREEN : Z := 0x18.
Definition GET_BATTERY : Z := 0x2C.
Definition SEND_NOTIFICATION : Z := 0x4B.
Definition SEND_TEXT : Z := 0x4E.
Definition DEVICE_EVENTS : Z := 0xF5.
Definition BMP_TRANSMISSION_END : list Z := [0x20; 0x0d; 0x0e].
Definition CRC_CHECK : Z := 0x16.
Definition SET_DASHBOARD : Z := 0x06.
Definition MICROPHONE_CONTROL : Z := 0x0E.
Definition SEND_HEARTBEAT : Z := 0x25.
Definition CLEAR_NOTIFICATION : Z := 0x4C.
Definition INIT : Z := 0x4D.
End COMMANDS.

(** [SCREEN_STATUS] is imported from [./glasses]. *)
Module SCREEN_STATUS.
Definition NEW_CONTENT : Z := 0x01.
Definition TEXT_SHOW : Z := 0x70.
End SCREEN_STATUS.

(** ** Command sending *)

(** [sendCommand(data, toLeft, toRight)]: every selected endpoint whose TX
    characteristic is present gets one write; both writes are issued before
    either is awaited, and [Promise.all] rejects when one of them does. *)
Definition sendCommand (data : Uint8Array) (toLeft toRight : bool) : M unit :=
  fun m =>
    let left :=
      match toLeft, leftTxCharacteristic m with
      | true, Some c => [(LeftArm, c)]
      | _, _ => []
      end in
    let right :=
      match toRight, rightTxCharacteristic m with
      | true, Some c => [(RightArm, c)]
      | _, _ => []
      end in
    let promises := left ++ right in
    (if forallb (fun p => writeWithResponse (snd p) data) promises
     then Resolved tt else Rejected,
     m,
     map (fun p => Write (fst p) data) promises).

(** [sendNotification]: [jsonBytes] is the UTF-8 coding of the serialised
    notification object. *)
Definition sendNotification (jsonBytes : Uint8Array) : M unit :=
  if (180 <? length jsonBytes)%nat then throw
  else
    let command :=
      u8_of [COMMANDS.SEND_NOTIFICATION; 0x00; 0x01; 0x00] ++ jsonBytes in
    sendCommand command true false.

Definition setBrightness (brightness : Z) (autoMode : bool) : M unit :=
  let command :=
    u8_of [COMMANDS.SET_BRIGHTNESS;
           Z.max 0 (Z.min 42 brightness);
           if autoMode then 0x01 else 0x00] in
  sendCommand command false true.


Definition clearScreen : M unit :=
  let command := u8_of [COMMANDS.CLEAR_SCREEN] in
  sendCommand command true true.


(** ** FrameCodec ([createTextPacket]) *)
Definition createTextPacket (data : Uint8Array)
    (currentPacket totalPackets currentPage maxPages : Z) : M Uint8Array :=
  m <- get ;;
  let sequence := sequenceNumber m in
  modify (set_sequenceNumber (sequenceNumber m + 1)) ;;
  let newScreen := JS.bor SCREEN_STATUS.NEW_CONTENT SCREEN_STATUS.TEXT_SHOW in
  let header :=
    u8_of [COMMANDS.SEND_TEXT; sequence; totalPackets; currentPacket;
           newScreen; 0; 0; currentPage; maxPages] in
  ret (header ++ data).

(** ** Lifecycle ([disconnect]) and observers *)
Definition stopHeartbeat : M unit :=
  m <- get ;;
  if heartbeatInterval m then modify (set_heartbeatInterval false) else ret tt.

Definition disconnect : M unit :=
  try_catch
    (stopHeartbeat ;;
     modify (set_isConnected false) ;;
     m <- get ;;
     match leftDevice m with
     | Some d =>
         (if cancelConnection d then ret tt else throw) ;;
         modify (set_leftDevice None)
     | None => ret tt
     end ;;
     m <- get ;;
     match rightDevice m with
     | Some d =>
         (if cancelConnection d then ret tt else throw) ;;
         modify (set_rightDevice None)
     | None => ret tt
     end ;;
     modify (set_characteristics None None))
    (ret tt).

Definition onDeviceEvent (callback : nat) : M unit :=
  modify (fun m => set_callbacks (onDeviceEventCallbacks m ++ [callback])
                                 (onBatteryUpdateCallbacks m) m).

Definition onBatteryUpdate (callback : nat) : M unit :=
  modify (fun m => set_callbacks (onDeviceEventCallbacks m)
                                 (onBatteryUpdateCallbacks m ++ [callback]) m).

(** ** EventDispatcher *)
Definition update_flags (f : DeviceFlags -> DeviceFlags) : M unit :=
  modify (fun m => set_flags (f (flags m)) m).

(** [mapTypeToCommand]: the label of a sub-code, with the state updates and
    the [clearScreen] calls that the [switch] performs on the way. *)
Definition mapTypeToCommand (type : Z) : M string :=
  if type =? 0x00 then ret "TouchPad Double Tap"%string
  else if type =? 0x01 then ret "TouchPad Single Tap"%string
  else if type =? 0x02 then ret "Head Up"%string
  else if type =? 0x03 then ret "Head Down"%string
  else if type =? 0x04 then
    update_flags (with_worn true) ;; update_flags (with_silent true) ;;
    ret "TouchPad Triple Tap"%string
  else if type =? 0x05 then
    update_flags (with_worn true) ;; update_flags (with_silent false) ;;
    ret "TouchPad Triple Tap"%string
  else if type =? 0x06 then
    update_flags (with_worn true) ;; ret "Glasses are worn"%string
  else if type =? 0x07 then
    update_flags (with_worn false) ;;
    ret "Glasses taken off, not in box"%string
  else if type =? 0x08 then
    update_flags (with_case true true) ;; ret "Put in case, lid open"%string
  else if type =? 0x09 then
    update_flags (with_charging true) ;; ret "Charging Status Change"%string
  else if type =? 0x0B then
    update_flags (with_case true false) ;; ret "Put in case, lid closed"%string
  else if type =? 0x0E then
    update_flags (with_charging false) ;;
    ret "Case Charging Status Change"%string
  else if type =? 0x0F then
    update_flags (with_charging false) ;; ret "Case Battery Percent"%string
  else if type =? 0x11 then
    update_flags (with_worn true) ;; ret "BLE Paired Success"%string
  else if type =? 0x12 then
    update_flags (with_worn true) ;;
    ret "Right TouchPad pressed, held and released"%string
  else if type =? 0x17 then
    update_flags (with_worn true) ;; not_awaited clearScreen ;;
    ret "Left TouchPad pressed and held"%string
  else if type =? 0x18 then
    update_flags (with_worn true) ;; not_awaited clearScreen ;;
    ret "Left TouchPad pressed Released"%string
  else if type =? 0x1E then
    update_flags (with_worn true) ;; ret "Open Dashboard (double tap)"%string
  else if type =? 0x1F then ret "Close Dashboard (double tap)"%string
  else if type =? 0x20 then
    ret "Double tap (translate/transcribe mode)"%string
  else ret "Unknown event"%string.

Definition handleDeviceEvent (bytes : Uint8Array) : M unit :=
  match nth_error bytes 1 with
  | None => ret tt
  | Some subCommand =>
      let type := subCommand in
      let data := skipn 2 bytes in
      mapTypeToCommand type ;;
      m <- get ;;
      for_each (fun callback => emit (DeviceEventCallback callback type data))
               (onDeviceEventCallbacks m)
  end.

Definition handleBatteryUpdate (bytes : Uint8Array) (isLeft : bool) : M unit :=
  if (length bytes <? 4)%nat then ret tt
  else
    let batteryInfo := {|
      percentage := JS.operand (nth_error bytes 3);
      isCharging :=
        negb (JS.band (JS.operand (nth_error bytes 2)) 0x01 =? 0);
      voltage :=
        if (4 <? length bytes)%nat
        then Some (JS.bor (JS.shl (JS.operand (nth_error bytes 4)) 8)
                          (JS.operand (nth_error bytes 5)))
        else None
    |} in
    m <- get ;;
    for_each
      (fun callback => emit (BatteryUpdateCallback callback batteryInfo isLeft))
      (onBatteryUpdateCallbacks m).

(** [handleNotification]: [bytes] is the decoded notification value. *)
Definition handleNotification (bytes : Uint8Array) (isLeft : bool) : M unit :=
  match nth_error bytes 0 with
  | Some command =>
      if command =? COMMANDS.DEVICE_EVENTS then handleDeviceEvent bytes
      else if command =? COMMANDS.GET_BATTERY then
        handleBatteryUpdate bytes isLeft
      else ret tt
  | None => ret tt
  end.

(** ** CrcEngine: the loop shared by both copies of [calculateCRC32] *)
Definition polynomial : Z := 0x04C11DB7.

(** The body of [for (let j = 0; j < 8; j++)]. *)
Definition crc_bit (crc : Z) : Z :=
  if JS.truthy (JS.band crc 0x80000000)
  then JS.bxor (JS.shl crc 1) polynomial
  else JS.shl crc 1.

(** The body of [for (let i = 0; i < data.length; i++)] at [data[i] = b]. *)
Definition crc_byte (crc b : Z) : Z :=
  Nat.iter 8 crc_bit (JS.bxor crc (JS.shl b 24)).

Definition crc_loop (crc : Z) (data : Uint8Array) : Z :=
  fold_left crc_byte data crc.

Definition uint32ToBytes (value : Z) : list Z :=
  [JS.band (JS.shr value 24) 0xFF;
   JS.band (JS.shr value 16) 0xFF;
   JS.band (JS.shr value 8) 0xFF;
   JS.band value 0xFF].

(** The storage address that prefixes the first image packet. *)
Definition storageAddress : Uint8Array := [0x00; 0x1C; 0x00; 0x00].

(** One image packet: opcode, index byte, the storage address when [i = 0],
    then the chunk that starts at offset [i]. *)
Definition bmp_packet (chunkSize : nat) (imageData : Uint8Array) (i : nat)
  : Uint8Array :=
  let chunk := slice imageData i (i + chunkSize) in
  u8_of [COMMANDS.SEND_BITMAP; JS.band (Z.of_nat (i / chunkSize)) 0xFF]
    ++ (if (i =? 0)%nat then storageAddress else [])
    ++ chunk.

Record BMPImageData : Type := {
  width : Z;
  height : Z;
  data : Uint8Array
}.

(** Every image packet goes to the left endpoint, then to the right one. *)
Definition send_left_then_right (packet : Uint8Array) : M unit :=
  sendCommand packet true false ;;
  sendCommand packet false true.

(** ** The copy in [src/contoller/glasses2.ts] *)
Module G2.

(** [x] and [y] are integers.  [Math.min(x, 488 - 21 * 0.6)] is cut to an
    integer by [&], which gives [min(x, 475)]; [5 * (21 * 1.2)] is the double
    126 exactly. *)
Definition sendText (text : JsString) (x y : Z) (replace : bool) : M bool :=
  m <- get ;;
  if negb (isConnected m) then ret false
  else
    let lines := splitTextIntoLines text in
    let screens := splitIntoScreens lines in
    for_each (fun '(screenIndex, screen) =>
      let packets := createTextPackets screen in
      for_each (fun '(packetIndex, chunk) =>
        let screenStatus :=
          if replace then SCREEN_STATUS.TEXT_SHOW
          else JS.bor SCREEN_STATUS.NEW_CONTENT SCREEN_STATUS.TEXT_SHOW in
        packet <- createTextPacket chunk (Z.of_nat packetIndex)
                    (Z.of_nat (length packets)) (Z.of_nat screenIndex)
                    (Z.of_nat (length screens)) ;;
        let packet := u8_set packet 4 screenStatus in
        let screenY := y + Z.of_nat screenIndex * 126 in
        let adjustedX := Z.min x 475 in
        let packet := u8_set packet 5 (JS.band adjustedX 0xFF) in
        let packet := u8_set packet 6 (JS.band (JS.sar adjustedX 8) 0xFF) in
        let packet := u8_set packet 7 (JS.band screenY 0xFF) in
        let packet := u8_set packet 8 (JS.band (JS.sar screenY 8) 0xFF) in
        sendCommand packet true true)
        (indexed packets))
      (indexed screens) ;;
    ret true.

(** The [return] expression of [calculateCRC32]:
    [(result << 24) | ((result & 0xFF00) << 8) | ((result & 0xFF0000) >> 8)
     | (result >>> 24)]. *)
Definition big_endian (result : Z) : Z :=
  JS.bor
    (JS.bor
       (JS.bor (JS.shl result 24) (JS.shl (JS.band result 0xFF00) 8))
       (JS.sar (JS.band result 0xFF0000) 8))
    (JS.shr result 24).

Definition calculateCRC32 (data : Uint8Array) : Z :=
  let crc := 0xFFFFFFFF in
  let crc := crc_loop crc storageAddress in
  let crc := crc_loop crc data in
  let result := JS.shr (JS.bnot crc) 0 in
  big_endian result.

Definition chunkSize : nat := 194 - 2.

Definition createBMPPackets (imageData : Uint8Array) : list Uint8Array :=
  map (bmp_packet chunkSize imageData)
      (for_from_zero chunkSize (length imageData)).

(** [convertTo1BitBMP]: [targetRow] is a [slice] of [bmpData], that is a
    copy, so the stores of the inner loop never reach [bmpData]. *)
Definition convertTo1BitBMP (input : Uint8Array) : Uint8Array :=
  let imageData := skipn 54 input in
  let bytesPerRow := 72%nat in
  let paddedBytesPerRow := 72%nat in
  let bmpData := repeat 0 (bytesPerRow * 136) in
  fold_left
    (fun bmpData y =>
       let sourceRow :=
         slice imageData (y * paddedBytesPerRow) ((y + 1) * paddedBytesPerRow) in
       let targetRow :=
         slice bmpData (y * bytesPerRow) ((y + 1) * bytesPerRow) in
       let targetRow :=
         fold_left
           (fun row x => u8_set row x (JS.operand (nth_error sourceRow x)))
           (seq 0 bytesPerRow) targetRow in
       bmpData)
    (seq 0 136) bmpData.

Definition sendBMPImage (imageData : BMPImageData) : M bool :=
  m <- get ;;
  if negb (isConnected m) then ret false
  else if negb (width imageData =? 576) || negb (height imageData =? 136)
  then ret false
  else
    try_catch
      (let bmpData := convertTo1BitBMP (data imageData) in
       let packets := createBMPPackets (data imageData) in
       for_each send_left_then_right packets ;;
       let endCommand := u8_of [0x20; 0x0d; 0x0e] in
       send_left_then_right endCommand ;;
       let crcData := u8_of ([0x00; 0x1c; 0x00; 0x00] ++ bmpData) in
       let crc := calculateCRC32 crcData in
       let crcCommand := u8_of (COMMANDS.CRC_CHECK :: uint32ToBytes crc) in
       send_left_then_right crcCommand ;;
       ret true)
      (ret false).

End G2.

(** ** The copy in [unnamed/part_002] *)
Module P2.

Definition sendText (text : JsString) (position : Z) : M bool :=
  m <- get ;;
  if negb (isConnected m) then ret false
  else
    try_catch
      (let textLines := splitTextIntoLines text in
       let screens := splitIntoScreens textLines in
       for_each (fun '(screenIndex, screen) =>
         let packets := createTextPackets screen in
         for_each (fun '(packetIndex, chunk) =>
           packet <- createTextPacket chunk (Z.of_nat packetIndex)
                       (Z.of_nat (length packets)) (Z.of_nat screenIndex)
                       (Z.of_nat (length screens)) ;;
           let packet := u8_set packet 5 (JS.band position 0xFF) in
           let packet := u8_set packet 6 (JS.band (JS.sar position 8) 0xFF) in
           sendCommand packet true true)
           (indexed packets))
         (indexed screens) ;;
       ret true)
      (ret false).

Definition calculateCRC32 (data : Uint8Array) : Z :=
  let crc := 0xFFFFFFFF in
  let crc := crc_loop crc data in
  JS.shr (JS.bnot crc) 0.

Definition chunkSize : nat := 193.

(** The test [packetIndex === 0] of this copy, with
    [packetIndex = Math.floor(i / 193)], holds at [i = 0] only, since [i] runs
    over the multiples of 193. *)
Definition createBMPPackets (imageData : Uint8Array) : list Uint8Array :=
  map (bmp_packet chunkSize imageData)
      (for_from_zero chunkSize (length imageData)).

Definition sendBMPImage (imageData : BMPImageData) : M bool :=
  m <- get ;;
  if negb (isConnected m) then ret false
  else if 488 <? width imageData then ret false
  else
    try_catch
      (let packets := createBMPPackets (data imageData) in
       for_each send_left_then_right packets ;;
       let endCommand := u8_of [nth 0 COMMANDS.BMP_TRANSMISSION_END 0] in
       send_left_then_right endCommand ;;
       let crc := calculateCRC32 (data imageData) in
       let crcCommand := u8_of (COMMANDS.CRC_CHECK :: uint32ToBytes crc) in
       send_left_then_right crcCommand ;;
       ret true)
      (ret false).

End P2.

(** ** The checksum as the specification words it

    The register is a 32-bit value that starts at [0xFFFFFFFF]; an input byte
    is XORed into bits 31..24; each of the eight steps shifts the register
    left by one, within 32 bits, and XORs the polynomial in when bit 31 was
    set before the shift; the result is the one's complement of the register
    masked to 32 bits. *)
Module Reference.

Definition step (reg : Z) : Z :=
  let shifted := Z.land (Z.shiftl reg 1) 0xFFFFFFFF in
  if Z.testbit reg 31 then Z.lxor shifted 0x04C11DB7 else shifted.

Definition update (reg byte : Z) : Z :=
  Nat.iter 8 step (Z.lxor reg (Z.shiftl byte 24)).

Definition crc32 (input : list Z) : Z :=
  Z.land (Z.lnot (fold_left update input 0xFFFFFFFF)) 0xFFFFFFFF.

(** The four bytes of a 32-bit value in the opposite order. *)
Definition byte_swap (v : Z) : Z :=
  (v mod 256) * 2 ^ 24 + ((v / 2 ^ 8) mod 256) * 2 ^ 16
  + ((v / 2 ^ 16) mod 256) * 2 ^ 8 + (v / 2 ^ 24) mod 256.

End Reference.

(** ** Predicates used in the statements *)

(** The text frames built by consecutive calls of [createTextPacket]; an
    element of [args] is [(data, currentPacket, totalPackets, currentPage,
    maxPages)]. *)
Definition TextFrameArgs : Type := (Uint8Array * Z * Z * Z * Z)%type.

Fixpoint build_frames (args : list TextFrameArgs) : M (list Uint8Array) :=
  match args with
  | [] => ret []
  | (data, currentPacket, totalPackets, currentPage, maxPages) :: rest =>
      frame <- createTextPacket data currentPacket totalPackets currentPage
                 maxPages ;;
      frames <- build_frames rest ;;
      ret (frame :: frames)
  end.

Definition frames_of (r : Outcome (list Uint8Array) * Manager * list Effect)
  : list Uint8Array :=
  match outcome r with Resolved frames => frames | Rejected => [] end.

(** Byte 1 of a text frame. *)
Definition sequence_byte (frame : Uint8Array) : Z := nth 1 frame 0.





(** Sample sessions.  [connected_session] is the state that
    [connectToGlasses] leaves when every step succeeded, with endpoints that
    accept every write; in [stuck_session] the left device refuses
    [cancelConnection]. *)
Definition accepting : Characteristic := {| writeWithResponse := fun _ => true |}.

Definition session (left right : Device) : Manager :=
  set_isConnected true
    (set_heartbeatInterval true
       (set_characteristics (Some accepting) (Some accepting)
          (set_rightDevice (Some right)
             (set_leftDevice (Some left) new_manager)))).

Definition connected_session : Manager :=
  session {| cancelConnection := true |} {| cancelConnection := true |}.


Definition accepts_all (c : Characteristic) : Prop :=
  forall payload, writeWithResponse c payload = true.

Definition both_arms (payload : Uint8Array) : list Effect :=
  [Write LeftArm payload; Write RightArm payload].

Definition sample_image : BMPImageData :=
  {| width := 576; height := 136; data := [1; 2; 3] |}.


(** The width pre-check as the specification states it, for a given
    [sendBMPImage]: a declared width over 488 is refused without any effect,
    and a declared width of at most 488 passes the pre-check, so that a
    connected session with a left TX characteristic starts writing. *)
Definition width_precheck (sendBMPImage : BMPImageData -> M bool) : Prop :=
  forall imageData m,
    (488 < width imageData ->
     sendBMPImage imageData m = (Resolved false, m, []))
    /\ (width imageData <= 488 -> isConnected m = true ->
        leftTxCharacteristic m <> None ->
        trace (sendBMPImage imageData m) <> []).

(** The [k]-th chunk of [imageData] for chunk size [c]. *)
Definition bmp_chunk (c : nat) (imageData : Uint8Array) (k : nat) : Uint8Array :=
  slice imageData (k * c) (k * c + c).

(** The layout of the packets made from [imageData] with chunk size [c]:
    [ceil(len/c)] packets; packet [k] is the opcode, the index byte, the
    storage address when [k = 0], and the chunk at offset [k * c], which has at
    most [c] bytes; the chunks in order make up [imageData]; and packet 0 is 4
    bytes longer than any later packet that carries a full chunk. *)
Definition chunked_by (c : nat) (imageData : Uint8Array)
    (packets : list Uint8Array) : Prop :=
  length packets = ((length imageData + c - 1) / c)%nat
  /\ (forall k, (k < length packets)%nat ->
        nth k packets []
        = COMMANDS.SEND_BITMAP :: Z.of_nat k mod 256
            :: (if (k =? 0)%nat then storageAddress else [])
            ++ bmp_chunk c imageData k
        /\ (length (bmp_chunk c imageData k) <= c)%nat)
  /\ concat (map (bmp_chunk c imageData) (seq 0 (length packets))) = imageData
  /\ (forall k, (0 < k < length packets)%nat ->
        length (bmp_chunk c imageData k) = c ->
        length (nth 0 packets []) = (length (nth k packets []) + 4)%nat).

(** A line is within the width bound, or it is one word, free of spaces, that
    is over the bound by itself. *)
Definition line_ok (line : JsString) : Prop :=
  Z.of_nat (length line) * 126 <= 4880
  \/ (~ In SPACE line /\ 4880 < Z.of_nat (length line) * 126).

(** ** Further methods of the controller

    The methods below are the same in both copies, except
    [sendLoadingAnimation] and [showImage], which only [glasses2.ts] has. *)

Definition set_heartbeatSequence (n : Z) (m : Manager) : Manager :=
  {| leftDevice := leftDevice m; rightDevice := rightDevice m;
     leftTxCharacteristic := leftTxCharacteristic m;
     rightTxCharacteristic := rightTxCharacteristic m;
     isConnected := isConnected m; heartbeatInterval := heartbeatInterval m;
     sequenceNumber := sequenceNumber m; heartbeatSequence := n;
     flags := flags m; onDeviceEventCallbacks := onDeviceEventCallbacks m;
     onBatteryUpdateCallbacks := onBatteryUpdateCallbacks m |}.

Definition clearNotification (msgId : Z) : M unit :=
  let command :=
    u8_of [COMMANDS.CLEAR_NOTIFICATION;
           JS.band (JS.sar msgId 24) 0xFF;
           JS.band (JS.sar msgId 16) 0xFF;
           JS.band (JS.sar msgId 8) 0xFF;
           JS.band msgId 0xFF] in
  sendCommand command true false.

Definition enableMicrophone (enabled : bool) : M unit :=
  let command :=
    u8_of [COMMANDS.MICROPHONE_CONTROL; if enabled then 0x01 else 0x00] in
  sendCommand command true true.

Record WeatherData : Type := {
  icon : Z;
  temperature : Z;
  isCelsius : bool;
  is24Hour : bool
}.

(** [target.set(source, offset)] on typed arrays, for a source that fits. *)
Fixpoint u8_blit (target : Uint8Array) (offset : nat) (source : Uint8Array)
  : Uint8Array :=
  match source with
  | [] => target
  | b :: rest => u8_blit (u8_set target offset b) (S offset) rest
  end.

(** The 8 bytes that [setBigUint64(0, v, false)] stores: [v] modulo [2^64],
    most significant byte first. *)
Definition bigUint64_bytes (v : Z) : Uint8Array :=
  map (fun k => (v mod 2 ^ 64 / 2 ^ (8 * Z.of_nat (7 - k))) mod 256) (seq 0 8).

(** [setDashboardTimeAndWeather]: [now] is [new Date().getTime()], the
    current time in milliseconds. *)
Definition setDashboardTimeAndWeather (now : Z) (weather : WeatherData)
  : M unit :=
  let unixTimestamp := now / 1000 in
  let unixTimestampMs := now in
  let command := repeat 0 18 in
  let command := u8_set command 0 COMMANDS.SET_DASHBOARD in
  let command := u8_set command 1 0x12 in
  let command := u8_set command 2 0x00 in
  m <- get ;;
  modify (set_sequenceNumber (sequenceNumber m + 1)) ;;
  let command := u8_set command 3 (JS.band (sequenceNumber m) 0xFF) in
  let command := u8_set command 4 0x01 in
  let command := u8_set command 5 (JS.band (JS.sar unixTimestamp 24) 0xFF) in
  let command := u8_set command 6 (JS.band (JS.sar unixTimestamp 16) 0xFF) in
  let command := u8_set command 7 (JS.band (JS.sar unixTimestamp 8) 0xFF) in
  let command := u8_set command 8 (JS.band unixTimestamp 0xFF) in
  let msArray := bigUint64_bytes unixTimestampMs in
  let command := u8_blit command 9 msArray in
  let command := u8_set command 17 (icon weather) in
  let command := u8_set command 18 (temperature weather) in
  let command := u8_set command 19 (if isCelsius weather then 0x00 else 0x01) in
  let command := u8_set command 20 (if is24Hour weather then 0x01 else 0x00) in
  sendCommand command true true.

Definition sendInitialCommands : M unit :=
  let initCommand := u8_of [COMMANDS.INIT; 0xFB] in
  sendCommand initCommand true false.

Definition startHeartbeat : M unit := modify (set_heartbeatInterval true).

(** The callback that [startHeartbeat] hands to [setInterval]: one tick. *)
Definition heartbeat_tick : M unit :=
  try_catch
    (m <- get ;;
     modify (set_heartbeatSequence (heartbeatSequence m + 1)) ;;
     let command :=
       u8_of [COMMANDS.SEND_HEARTBEAT; JS.band (heartbeatSequence m) 0xFF] in
     sendCommand command true true)
    (ret tt).

(** What the transport answers during [connectToGlasses].  A connection
    attempt ([connectToDevice], which also runs the discovery of the device)
    yields a device or rejects ([None]).  The lookup of the UART service and
    of its TX characteristic on a device either fails before the assignment of
    the characteristics (a rejected [services()] or [characteristics()] call,
    or no UART service) or yields what [find] returned for the TX
    characteristic. *)
Inductive Discovery : Type :=
| DiscoveryFails
| Discovered (tx : option Characteristic).

Definition setupCharacteristics (leftUart rightUart : Discovery) : M unit :=
  m <- get ;;
  match leftDevice m, rightDevice m with
  | Some _, Some _ =>
      match leftUart, rightUart with
      | Discovered leftTx, Discovered rightTx =>
          modify (set_characteristics leftTx rightTx) ;;
          match leftTx, rightTx with
          | Some _, Some _ => ret tt
          | _, _ => throw
          end
      | _, _ => throw
      end
  | _, _ => throw
  end.

(** [setupNotifications] registers the two monitors, which hands back a
    subscription each (errors of a monitor go to its listener, which logs
    them); the notifications they deliver are the calls of
    [handleNotification]. *)
Definition setupNotifications : M unit := ret tt.

(** [connectToGlasses]: the two device fields are assigned together, once
    both connection attempts have resolved. *)
Definition connectToGlasses (leftConn rightConn : option Device)
    (leftUart rightUart : Discovery) : M bool :=
  try_catch
    (match leftConn, rightConn with
     | Some leftDev, Some rightDev =>
         modify (set_leftDevice (Some leftDev)) ;;
         modify (set_rightDevice (Some rightDev))
     | _, _ => throw
     end ;;
     setupCharacteristics leftUart rightUart ;;
     setupNotifications ;;
     sendInitialCommands ;;
     startHeartbeat ;;
     modify (set_isConnected true) ;;
     ret true)
    (disconnect ;; ret false).

(** [sendLoadingAnimation] of [glasses2.ts]; [iterations] is an integer. *)
Definition loading_frames : list JsString := [[47]; [45]; [92]; [124]].

Definition sendLoadingAnimation (iterations : Z) : M unit :=
  m <- get ;;
  if negb (isConnected m) then ret tt
  else
    for_each (fun _ : nat =>
      for_each (fun frame =>
        packet <- createTextPacket (encode frame) 0 1 0 1 ;;
        let packet := u8_set packet 4 SCREEN_STATUS.TEXT_SHOW in
        let packet := u8_set packet 5 (JS.band 100 0xFF) in
        let packet := u8_set packet 6 (JS.band (JS.sar 100 8) 0xFF) in
        let packet := u8_set packet 7 (JS.band 100 0xFF) in
        let packet := u8_set packet 8 (JS.band (JS.sar 100 8) 0xFF) in
        sendCommand packet true true)
        loading_frames)
      (seq 0 (Z.to_nat iterations)).

(** [showImage] of [glasses2.ts]. *)
Definition showImage (imageData : BMPImageData) : M bool :=
  m <- get ;;
  if negb (isConnected m) then ret false
  else
    try_catch
      (let displayCommand :=
         u8_of [COMMANDS.SEND_BITMAP; 0x00; 0x00; 0x1c; 0x00; 0x00] in
       send_left_then_right displayCommand ;;
       let bmpData := G2.convertTo1BitBMP (data imageData) in
       let crcData := u8_of ([0x00; 0x1c; 0x00; 0x00] ++ bmpData) in
       let crc := G2.calculateCRC32 crcData in
       let crcCommand := u8_of (COMMANDS.CRC_CHECK :: uint32ToBytes crc) in
       send_left_then_right crcCommand ;;
       ret true)
      (ret false).

(** ** Predicates used in the further properties *)

(** The big-endian value of a byte sequence. *)
Definition big_endian_value (bytes : list Z) : Z :=
  fold_left (fun acc b => acc * 256 + b) bytes 0.

(** A string without its spaces. *)
Definition without_spaces (s : JsString) : JsString :=
  filter (fun c => negb (c =? SPACE)) s.

(** The payloads written to endpoint [e], in order. *)
Definition writes_to (e : Endpoint) (t : list Effect) : list Uint8Array :=
  flat_map (fun eff =>
              match eff, e with
              | Write LeftArm payload, LeftArm => [payload]
              | Write RightArm payload, RightArm => [payload]
              | _, _ => []
              end) t.

(** The payloads written to either endpoint, in order. *)
Definition written (t : list Effect) : list Uint8Array :=
  flat_map (fun eff => match eff with Write _ payload => [payload] | _ => [] end)
           t.

(** A session as [disconnect] leaves it when nothing went wrong. *)
Definition idle (m : Manager) : Prop :=
  leftDevice m = None /\ rightDevice m = None
  /\ leftTxCharacteristic m = None /\ rightTxCharacteristic m = None
  /\ isConnected m = false /\ heartbeatInterval m = false.

Definition refusing : Characteristic := {| writeWithResponse := fun _ => false |}.

(** The notifications that make the dispatcher call [clearScreen]: a device
    event with sub-code 0x17 or 0x18. *)
Definition clears_screen (bytes : Uint8Array) : bool :=
  match bytes with
  | command :: subCommand :: _ =>
      (command =? COMMANDS.DEVICE_EVENTS)
      && ((subCommand =? 0x17) || (subCommand =? 0x18))
  | _ => false
  end.

(** The buffer of [72 * 136] zero bytes that [new Uint8Array] allocates in
    [convertTo1BitBMP], and the checksum frame computed from it. *)
Definition blank_bitmap : Uint8Array := repeat 0 (72 * 136).

Definition blank_checksum_frame : Uint8Array :=
  u8_of (COMMANDS.CRC_CHECK
           :: uint32ToBytes
                (G2.calculateCRC32
                   (u8_of ([0x00; 0x1c; 0x00; 0x00] ++ blank_bitmap)))).

(** A line that is not empty and does not start with a space. *)
Definition starts_with_text (line : JsString) : Prop :=
  match line with
  | [] => False
  | c :: _ => c <> SPACE
  end.

(** Every payload that a method writes, from whatever state, satisfies [P]. *)
Definition writes_only {A : Type} (P : Uint8Array -> Prop) (c : M A) : Prop :=
  forall m, Forall P (written (trace (c m))).

(** * Theorems *)

(** ** The fixed-stride loop *)

Lemma for_range_multiples (step : nat) :
  (0 < step)%nat ->
  forall fuel i len, (len - i <= fuel)%nat ->
    for_range step fuel i len
    = map (fun k => (i + k * step)%nat) (seq 0 ((len - i + step - 1) / step)).
Proof.
  intros Hstep. induction fuel as [|fuel IH]; intros i len Hfuel.
  - replace ((len - i + step - 1) / step)%nat with 0%nat; [reflexivity|].
    symmetry. apply Nat.div_small. lia.
  - cbn [for_range]. destruct (Nat.ltb_spec i len) as [Hlt|Hge].
    + rewrite IH by lia.
      replace ((len - i + step - 1) / step)%nat
        with (S ((len - (i + step) + step - 1) / step)).
      * cbn [seq map]. f_equal; [lia|].
        rewrite <- seq_shift, map_map. apply map_ext. intros k. cbn. lia.
      * destruct (Nat.le_gt_cases step (len - i)) as [Hbig|Hsmall].
        -- replace (len - i + step - 1)%nat
             with ((len - (i + step) + step - 1) + 1 * step)%nat by lia.
           rewrite Nat.div_add by lia. lia.
        -- replace (len - (i + step))%nat with 0%nat by lia.
           rewrite (Nat.div_small (0 + step - 1) step) by lia.
           apply Nat.div_unique with (r := (len - i - 1)%nat); lia.
    + replace ((len - i + step - 1) / step)%nat with 0%nat; [reflexivity|].
      symmetry. apply Nat.div_small. lia.
Qed.

(** With [len - i] units of fuel the loop reaches its exit test: more fuel
    visits no further index. *)
Lemma for_range_fuel_enough (step fuel extra i len : nat) :
  (0 < step)%nat -> (len - i <= fuel)%nat ->
  for_range step (fuel + extra) i len = for_range step fuel i len.
Proof.
  intros Hstep Hfuel. rewrite !for_range_multiples by lia. reflexivity.
Qed.

Lemma for_from_zero_multiples (step len : nat) :
  (0 < step)%nat ->
  for_from_zero step len
  = map (fun k => (k * step)%nat) (seq 0 ((len + step - 1) / step)).
Proof.
  intros Hstep. unfold for_from_zero.
  rewrite for_range_multiples by lia. rewrite Nat.sub_0_r. reflexivity.
Qed.

Lemma slice_length_le {A : Type} (a : list A) (i n : nat) :
  (length (slice a i (i + n)) <= n)%nat.
Proof.
  unfold slice. replace (i + n - i)%nat with n by lia. apply firstn_le_length.
Qed.

Lemma for_range_concat {A : Type} (a : list A) (step : nat) :
  (0 < step)%nat ->
  forall fuel i, (length a - i <= fuel)%nat ->
    concat (map (fun i => slice a i (i + step)) (for_range step fuel i (length a)))
    = skipn i a.
Proof.
  intros Hstep. induction fuel as [|fuel IH]; intros i Hfuel.
  - cbn. symmetry. apply skipn_all2. lia.
  - cbn [for_range]. destruct (Nat.ltb_spec i (length a)) as [Hlt|Hge].
    + cbn [map concat]. rewrite IH by lia. unfold slice.
      replace (i + step - i)%nat with step by lia.
      replace (skipn (i + step) a) with (skipn step (skipn i a))
        by (rewrite skipn_skipn; f_equal; lia).
      apply firstn_skipn.
    + cbn. symmetry. apply skipn_all2. lia.
Qed.

(** ** TextPaginator *)

(** C8.  For every list of lines, [splitIntoScreens] yields
    [ceil(len(lines)/5)] groups, every group has at most 5 lines, and the
    concatenation of the groups in order is the original list. *)
Theorem splitIntoScreens_groups (lines : list JsString) :
  length (splitIntoScreens lines) = ((length lines + 4) / 5)%nat
  /\ Forall (fun screen => (length screen <= 5)%nat) (splitIntoScreens lines)
  /\ concat (splitIntoScreens lines) = lines.
Proof.
  unfold splitIntoScreens. repeat split.
  - rewrite length_map, for_from_zero_multiples by lia.
    rewrite length_map, length_seq. f_equal. lia.
  - apply Forall_forall. intros screen Hin. apply in_map_iff in Hin.
    destruct Hin as [i [<- _]]. apply slice_length_le.
  - unfold for_from_zero. rewrite for_range_concat by lia. reflexivity.
Qed.

Lemma split_space_words (s : JsString) :
  Forall (fun word => ~ In SPACE word) (split_space s).
Proof.
  induction s as [|c r IH]; cbn [split_space].
  - constructor; [intros []|constructor].
  - destruct (Z.eqb_spec c SPACE) as [Heq|Hne].
    + constructor; [intros []|exact IH].
    + destruct (split_space r) as [|w ws]; inversion IH; subst.
      * constructor; [|constructor]. intros [H|[]]. congruence.
      * constructor; [|assumption]. intros [H|H]; [congruence|contradiction].
Qed.

Lemma word_line_ok (word : JsString) : ~ In SPACE word -> line_ok word.
Proof.
  intros Hw. unfold line_ok.
  destruct (Z.leb_spec (Z.of_nat (length word) * 126) 4880); [left|right]; auto.
Qed.

Lemma line_step_ok (lines : list JsString) (currentLine word : JsString) :
  Forall line_ok lines -> line_ok currentLine -> ~ In SPACE word ->
  Forall line_ok (fst (line_step (lines, currentLine) word))
  /\ line_ok (snd (line_step (lines, currentLine) word)).
Proof.
  intros Hl Hc Hw. unfold line_step, fits.
  set (testLine := if nonempty currentLine then _ else _).
  destruct (Z.leb_spec (Z.of_nat (length testLine) * 126) 4880) as [Hfit|Hno].
  - split; [exact Hl|left; exact Hfit].
  - destruct (nonempty currentLine); cbn [fst snd]; split;
      auto using word_line_ok;
      apply Forall_app; split; auto using word_line_ok.
Qed.

Lemma fold_line_step_ok (words : list JsString) :
  Forall (fun word => ~ In SPACE word) words ->
  forall lines currentLine,
    Forall line_ok lines -> line_ok currentLine ->
    Forall line_ok (fst (fold_left line_step words (lines, currentLine)))
    /\ line_ok (snd (fold_left line_step words (lines, currentLine))).
Proof.
  induction 1 as [|word words Hw _ IH]; intros lines currentLine Hl Hc.
  - cbn. auto.
  - cbn [fold_left].
    destruct (line_step_ok lines currentLine word Hl Hc Hw) as [Hl' Hc'].
    destruct (line_step (lines, currentLine) word) as [lines' currentLine'].
    apply IH; assumption.
Qed.

Lemma lines_flush_ok (st : list JsString * JsString) :
  Forall line_ok (fst st) -> line_ok (snd st) ->
  Forall line_ok
    (let '(lines, currentLine) := st in
     if nonempty currentLine then lines ++ [currentLine] else lines).
Proof.
  destruct st as [lines currentLine]. cbn [fst snd]. intros Hl Hc.
  destruct (nonempty currentLine); [|exact Hl].
  apply Forall_app. split; [exact Hl|]. constructor; [exact Hc|constructor].
Qed.

(** C7.  Every line returned by [splitTextIntoLines] has a character count of
    at most 488 / (21 * 0.6), that is [count * 12.6 <= 488], or is a single
    word without a space that is over that bound by itself.  This holds for
    every text, the non-empty ones included. *)
Theorem splitTextIntoLines_width (text : JsString) :
  Forall (fun line =>
            Z.of_nat (length line) * 126 <= 4880
            \/ (~ In SPACE line /\ 4880 < Z.of_nat (length line) * 126))
         (splitTextIntoLines text).
Proof.
  change (Forall line_ok (splitTextIntoLines text)).
  unfold splitTextIntoLines.
  assert (Hnil : line_ok []) by (left; cbn; lia).
  apply lines_flush_ok;
    apply (fold_line_step_ok (split_space text) (split_space_words text)
             [] [] (Forall_nil _) Hnil).
Qed.

(** ** Arithmetic of the 32-bit conversions *)

Lemma ToInt32_small (z : Z) : - 2 ^ 31 <= z < 2 ^ 31 -> JS.ToInt32 z = z.
Proof.
  unfold JS.ToInt32. change (2 ^ 31) with 2147483648.
  change (2 ^ 32) with 4294967296. intros H.
  rewrite Z.mod_small; lia.
Qed.

Lemma ToUint32_ToInt32 (z : Z) : JS.ToUint32 (JS.ToInt32 z) = JS.ToUint32 z.
Proof.
  unfold JS.ToUint32, JS.ToInt32. change (2 ^ 31) with 2147483648.
  change (2 ^ 32) with 4294967296.
  Z.div_mod_to_equations. lia.
Qed.

Lemma ToInt32_congr (x y : Z) :
  JS.ToUint32 x = JS.ToUint32 y -> JS.ToInt32 x = JS.ToInt32 y.
Proof.
  unfold JS.ToUint32, JS.ToInt32. change (2 ^ 31) with 2147483648.
  change (2 ^ 32) with 4294967296.
  intros H. f_equal. Z.div_mod_to_equations. lia.
Qed.

Lemma ToInt32_mod_256 (z : Z) : JS.ToInt32 z mod 256 = z mod 256.
Proof.
  unfold JS.ToInt32. change (2 ^ 31) with 2147483648.
  change (2 ^ 32) with 4294967296.
  Z.div_mod_to_equations. lia.
Qed.

Lemma band_255 (z : Z) : JS.band z 0xFF = z mod 256.
Proof.
  unfold JS.band. rewrite (ToInt32_small 255) by (cbn; lia).
  change 255 with (Z.ones 8). rewrite Z.land_ones by lia.
  change (2 ^ 8) with 256. rewrite ToInt32_mod_256.
  apply ToInt32_small. pose proof (Z.mod_pos_bound z 256). cbn. lia.
Qed.

(** ** ImageTransferEngine: chunking *)

Lemma combine_map_self {A B : Type} (f : A -> B) (l : list A) :
  combine l (map f l) = map (fun x => (x, f x)) l.
Proof. induction l as [|x l IH]; cbn; [reflexivity|]. now rewrite IH. Qed.

Lemma ceil_div_gt (c len k : nat) :
  (0 < c)%nat -> (k < (len + c - 1) / c)%nat -> (k * c < len)%nat.
Proof.
  intros Hc Hk. destruct (Nat.lt_ge_cases (k * c) len) as [|Hge]; [assumption|].
  exfalso. assert ((len + c - 1) / c < S k)%nat; [|lia].
  apply Nat.Div0.div_lt_upper_bound; lia.
Qed.

Lemma bmp_packet_at (c : nat) (imageData : Uint8Array) (k : nat) :
  (0 < c)%nat ->
  bmp_packet c imageData (k * c)
  = COMMANDS.SEND_BITMAP :: Z.of_nat k mod 256
      :: (if (k =? 0)%nat then storageAddress else [])
      ++ bmp_chunk c imageData k.
Proof.
  intros Hc. unfold bmp_packet, bmp_chunk, u8_of. cbn [map app].
  rewrite Nat.div_mul by lia. rewrite band_255.
  unfold JS.ToUint8. rewrite Z.mod_mod by lia.
  replace (k * c =? 0)%nat with (k =? 0)%nat; [reflexivity|].
  destruct k; [reflexivity|]. cbn [Nat.eqb]. symmetry.
  apply Nat.eqb_neq. nia.
Qed.

Lemma bmp_packets_chunked (c : nat) (imageData : Uint8Array) :
  (0 < c)%nat ->
  chunked_by c imageData
    (map (bmp_packet c imageData) (for_from_zero c (length imageData))).
Proof.
  intros Hc. rewrite for_from_zero_multiples by assumption. rewrite map_map.
  set (n := ((length imageData + c - 1) / c)%nat).
  assert (Hlen : length (map (fun k => bmp_packet c imageData (k * c)) (seq 0 n))
                 = n) by (rewrite length_map, length_seq; reflexivity).
  assert (Hnth : forall k, (k < n)%nat ->
            nth k (map (fun k => bmp_packet c imageData (k * c)) (seq 0 n)) []
            = bmp_packet c imageData (k * c)).
  { intros k Hk.
    rewrite (nth_indep _ [] (bmp_packet c imageData (0 * c)))
      by (rewrite length_map, length_seq; exact Hk).
    rewrite (map_nth (fun k => bmp_packet c imageData (k * c))).
    rewrite seq_nth by exact Hk. reflexivity. }
  unfold chunked_by. rewrite Hlen. split; [reflexivity|]. split; [|split].
  - intros k Hk. split; [|apply slice_length_le].
    rewrite Hnth by exact Hk. apply bmp_packet_at; exact Hc.
  - pose proof (for_range_concat imageData c Hc (length imageData) 0) as Hcat.
    rewrite for_range_multiples in Hcat by lia.
    rewrite Nat.sub_0_r, map_map in Hcat. cbn [skipn] in Hcat.
    rewrite <- Hcat at 2 by lia. fold n. apply f_equal, map_ext.
    intros k. unfold bmp_chunk. reflexivity.
  - intros k [Hpos Hk] Hfull.
    rewrite (Hnth 0%nat), (Hnth k) by lia.
    rewrite (bmp_packet_at c imageData 0), (bmp_packet_at c imageData k)
      by exact Hc.
    replace (k =? 0)%nat with false by (symmetry; apply Nat.eqb_neq; lia).
    cbn [Nat.eqb app length storageAddress]. rewrite Hfull.
    unfold bmp_chunk, slice. cbn [Nat.mul Nat.add skipn].
    rewrite Nat.sub_0_r, length_firstn.
    pose proof (ceil_div_gt c (length imageData) k Hc Hk). nia.
Qed.

(** The claim read on the copy in [unnamed/part_002]: 193 bytes give one
    packet, not [ceil(193/192) = 2]. *)
Lemma createBMPPackets_193_bytes :
  ~ chunked_by 192 (repeat 0 193) (P2.createBMPPackets (repeat 0 193)).
Proof.
  intros [Hcount _]. vm_compute in Hcount. discriminate Hcount.
Qed.

(** C3, amended.  In [glasses2.ts] the chunk size is 192: [createBMPPackets]
    makes [ceil(len/192)] packets of at most 192 payload bytes, and packet 0 is
    4 bytes longer than any other packet with a full chunk, the 4 bytes being
    the storage address [00 1C 00 00].  In the other copy the same holds with
    chunk size 193. *)
Theorem createBMPPackets_chunked (imageData : Uint8Array) :
  chunked_by 192 imageData (G2.createBMPPackets imageData)
  /\ chunked_by 193 imageData (P2.createBMPPackets imageData).
Proof.
  split.
  - apply (bmp_packets_chunked 192). lia.
  - apply (bmp_packets_chunked 193). lia.
Qed.

(** ** Running the monad *)

Lemma for_each_emit {A : Type} (f : A -> Effect) (l : list A) (m : Manager) :
  for_each (fun x => emit (f x)) l m = (Resolved tt, m, map f l).
Proof.
  induction l as [|x l IH]; [reflexivity|].
  cbn [for_each map]. unfold bind at 1. cbn. rewrite IH. reflexivity.
Qed.

Lemma bind_get {A : Type} (k : Manager -> M A) (m : Manager) :
  bind get k m = k m m.
Proof. unfold bind, get. destruct (k m m) as [[o m2] t2]. reflexivity. Qed.

Lemma createTextPacket_run (data : Uint8Array) (a b c d : Z) (m : Manager) :
  createTextPacket data a b c d m
  = (Resolved (u8_of [COMMANDS.SEND_TEXT; sequenceNumber m; b; a; 0x71; 0; 0; c; d]
               ++ data),
     set_sequenceNumber (sequenceNumber m + 1) m, []).
Proof. reflexivity. Qed.

(** ** FrameCodec: the sequence byte *)

Lemma build_frames_run (args : list TextFrameArgs) :
  forall m, exists frames m',
    build_frames args m = (Resolved frames, m', [])
    /\ length frames = length args
    /\ forall i, (i < length args)%nat ->
         sequence_byte (nth i frames [])
         = (sequenceNumber m + Z.of_nat i) mod 256.
Proof.
  induction args as [|[[[[data a] b] c] d] rest IH]; intros m.
  - exists [], m. repeat split. intros i Hi. cbn in Hi. lia.
  - destruct (IH (set_sequenceNumber (sequenceNumber m + 1) m))
      as [frames [m' [Hrun [Hlen Hseq]]]].
    eexists _, m'. split; [|split].
    + cbn [build_frames]. unfold bind at 1. rewrite createTextPacket_run.
      unfold bind at 1. rewrite Hrun. cbn. reflexivity.
    + cbn. now rewrite Hlen.
    + intros [|i] Hi.
      * cbn. unfold JS.ToUint8. f_equal. lia.
      * cbn [nth length] in *. rewrite Hseq by lia. cbn. f_equal. lia.
Qed.

(** C6.  The sequence byte of the text frames built one after the other in a
    session is the counter modulo 256, so it runs through 0..255 and follows
    255 by 0; two of these frames less than 256 frames apart never carry the
    same sequence byte. *)
Theorem sequence_byte_cycle (m : Manager) (args : list TextFrameArgs)
    (i j : nat) :
  (i < j < length args)%nat ->
  let frames := frames_of (build_frames args m) in
  let si := sequence_byte (nth i frames []) in
  let sj := sequence_byte (nth j frames []) in
  si = (sequenceNumber m + Z.of_nat i) mod 256
  /\ 0 <= si < 256
  /\ sj = (si + Z.of_nat (j - i)) mod 256
  /\ ((j - i < 256)%nat -> si <> sj).
Proof.
  intros Hij. destruct (build_frames_run args m) as [frames [m' [Hrun [_ Hseq]]]].
  unfold frames_of, outcome. rewrite Hrun. cbn [fst]. cbv zeta.
  rewrite !Hseq by lia.
  split; [reflexivity|]. split; [apply Z.mod_pos_bound; lia|]. split.
  - rewrite Zplus_mod_idemp_l. f_equal. lia.
  - intros Hnear. Z.div_mod_to_equations. lia.
Qed.

Lemma sequence_byte_cycle_witness :
  sequence_byte
    (nth 255 (frames_of (build_frames (repeat ([], 0, 1, 0, 1) 257) new_manager))
         []) = 255
  /\ sequence_byte
       (nth 256 (frames_of (build_frames (repeat ([], 0, 1, 0, 1) 257) new_manager))
            []) = 0.
Proof.
  pose proof (sequence_byte_cycle new_manager (repeat ([], 0, 1, 0, 1) 257)
                255 256) as H.
  cbv zeta in H. rewrite repeat_length in H.
  destruct (H ltac:(lia)) as [H1 [_ [H2 _]]].
  cbv zeta. split.
  - rewrite H1. reflexivity.
  - rewrite H2, H1. reflexivity.
Defined.

(** ** EventDispatcher *)

Lemma handleBatteryUpdate_run (b0 b1 b2 b3 : Z) (rest : Uint8Array)
    (isLeft : bool) (m : Manager) :
  handleNotification (COMMANDS.GET_BATTERY :: b1 :: b2 :: b3 :: rest) isLeft m
  = (Resolved tt, m,
     map (fun callback =>
            BatteryUpdateCallback callback
              {| percentage := b3;
                 isCharging := negb (JS.band b2 0x01 =? 0);
                 voltage :=
                   match rest with
                   | [] => None
                   | hi :: rest' =>
                       Some (JS.bor (JS.shl hi 8) (JS.operand (nth_error rest' 0)))
                   end |}
              isLeft)
         (onBatteryUpdateCallbacks m)).
Proof.
  unfold handleNotification. cbn [nth_error].
  change (COMMANDS.GET_BATTERY =? COMMANDS.DEVICE_EVENTS) with false.
  change (COMMANDS.GET_BATTERY =? COMMANDS.GET_BATTERY) with true. cbv iota.
  unfold handleBatteryUpdate. cbn [length Nat.ltb Nat.leb nth_error JS.operand].
  unfold bind, get. rewrite for_each_emit. cbn [app].
  destruct rest as [|hi rest']; reflexivity.
Qed.

(** C9, the defect.  A 5-byte battery notification has no byte 5, yet the
    decoded [BatteryInfo] carries a voltage: byte 4 shifted left by 8, with 0
    standing in for the missing low byte. *)
Theorem battery_voltage_from_five_bytes :
  trace (handleNotification [0x2C; 0x00; 0x01; 85; 0x0F] true
           (set_callbacks [] [7%nat] connected_session))
  = [BatteryUpdateCallback 7
       {| percentage := 85; isCharging := true; voltage := Some 3840 |} true].
Proof. reflexivity. Qed.

(** The scenario of the specification: 4 bytes decode without a voltage. *)
Lemma battery_scenario (isLeft : bool) :
  trace (handleNotification [0x2C; 0x00; 0x01; 85] isLeft
           (set_callbacks [] [7%nat] connected_session))
  = [BatteryUpdateCallback 7
       {| percentage := 85; isCharging := true; voltage := None |} isLeft].
Proof. reflexivity. Qed.

Lemma sendCommand_both (data : Uint8Array) (m : Manager)
    (cl cr : Characteristic) :
  leftTxCharacteristic m = Some cl -> rightTxCharacteristic m = Some cr ->
  sendCommand data true true m
  = (if writeWithResponse cl data && writeWithResponse cr data
     then Resolved tt else Rejected,
     m, [Write LeftArm data; Write RightArm data]).
Proof.
  intros Hl Hr. unfold sendCommand. rewrite Hl, Hr. cbn.
  rewrite andb_true_r. reflexivity.
Qed.

(** C10.  In a session that holds both TX characteristics, an inbound device
    event with sub-code 0x17 or 0x18 sets [isGlassesWorn], issues the
    CLEAR_SCREEN command [0x18] to the left and to the right endpoint, and then
    calls the device-event observers.  After the event [isGlassesWorn] is true
    and the five other flags are what they were. *)
Theorem touchpad_event_clears_screen (sub : Z) (rest : Uint8Array)
    (isLeft : bool) (m : Manager) (cl cr : Characteristic) :
  sub = 0x17 \/ sub = 0x18 ->
  leftTxCharacteristic m = Some cl ->
  rightTxCharacteristic m = Some cr ->
  handleNotification (COMMANDS.DEVICE_EVENTS :: sub :: rest) isLeft m
  = (Resolved tt,
     set_flags (with_worn true (flags m)) m,
     [Write LeftArm [COMMANDS.CLEAR_SCREEN];
      Write RightArm [COMMANDS.CLEAR_SCREEN]]
       ++ map (fun callback => DeviceEventCallback callback sub rest)
              (onDeviceEventCallbacks m))
  /\ flags (final (handleNotification
                     (COMMANDS.DEVICE_EVENTS :: sub :: rest) isLeft m))
     = {| isInCase := isInCase (flags m);
          isCaseOpen := isCaseOpen (flags m);
          isGlassesWorn := true;
          isGlassesInBox := isGlassesInBox (flags m);
          isGlassesCharging := isGlassesCharging (flags m);
          isInSilentMode := isInSilentMode (flags m) |}
  /\ isGlassesWorn
       (flags (final (handleNotification
                        (COMMANDS.DEVICE_EVENTS :: sub :: rest) isLeft m)))
     = true.
Proof.
  intros Hsub Hl Hr.
  assert (Hclear : not_awaited clearScreen (set_flags (with_worn true (flags m)) m)
                   = (Resolved tt, set_flags (with_worn true (flags m)) m,
                      [Write LeftArm [COMMANDS.CLEAR_SCREEN];
                       Write RightArm [COMMANDS.CLEAR_SCREEN]])).
  { unfold not_awaited, clearScreen.
    rewrite (sendCommand_both _ _ cl cr) by assumption. reflexivity. }
  assert (Hrun : handleNotification
                   (COMMANDS.DEVICE_EVENTS :: sub :: rest) isLeft m
                 = (Resolved tt,
                    set_flags (with_worn true (flags m)) m,
                    [Write LeftArm [COMMANDS.CLEAR_SCREEN];
                     Write RightArm [COMMANDS.CLEAR_SCREEN]]
                      ++ map (fun callback =>
                                DeviceEventCallback callback sub rest)
                             (onDeviceEventCallbacks m))).
  { unfold handleNotification. cbn [nth_error].
    change (COMMANDS.DEVICE_EVENTS =? COMMANDS.DEVICE_EVENTS) with true.
    cbv iota. unfold handleDeviceEvent. cbn [nth_error skipn].
    destruct Hsub as [-> | ->]; unfold mapTypeToCommand; cbn [Z.eqb Pos.eqb];
      unfold bind at 1; unfold bind at 1; unfold update_flags, modify;
      unfold bind at 1; rewrite Hclear; cbn [ret app];
      unfold bind at 1; unfold get; rewrite for_each_emit; reflexivity. }
  rewrite Hrun. split; [reflexivity|]. split; reflexivity.
Qed.

Lemma touchpad_event_clears_screen_witness :
  handleNotification [0xF5; 0x17; 0x01] true
    (set_callbacks [3%nat] [] connected_session)
  = (Resolved tt,
     set_flags (with_worn true (flags connected_session))
       (set_callbacks [3%nat] [] connected_session),
     [Write LeftArm [0x18]; Write RightArm [0x18];
      DeviceEventCallback 3 0x17 [0x01]])
  /\ flags (final (handleNotification [0xF5; 0x17; 0x01] true
                     (set_callbacks [3%nat] [] connected_session)))
     = {| isInCase := false; isCaseOpen := false; isGlassesWorn := true;
          isGlassesInBox := false; isGlassesCharging := false;
          isInSilentMode := false |}
  /\ isGlassesWorn
       (flags (final (handleNotification [0xF5; 0x17; 0x01] true
                        (set_callbacks [3%nat] [] connected_session))))
     = true.
Proof.
  apply (touchpad_event_clears_screen 0x17 [0x01] true
           (set_callbacks [3%nat] [] connected_session) accepting accepting);
    [left; reflexivity | reflexivity | reflexivity].
Defined.

(** ** DualEndpointSession: send operations and the connection state *)


Lemma disconnect_clears (m : Manager) :
  match leftDevice m with Some d => cancelConnection d = true | None => True end ->
  match rightDevice m with Some d => cancelConnection d = true | None => True end ->
  isConnected (final (disconnect m)) = false
  /\ leftTxCharacteristic (final (disconnect m)) = None
  /\ rightTxCharacteristic (final (disconnect m)) = None.
Proof.
  destruct m as [ld rd lt rt conn hb sq hs fl dc bc]. cbn [leftDevice rightDevice].
  intros Hl Hr. unfold disconnect, try_catch, stopHeartbeat, bind, get, modify.
  destruct hb, ld as [[cl]|], rd as [[cr]|]; cbn in Hl, Hr; subst;
    cbn; repeat split.
Qed.




(** ** ImageTransferEngine: the transfer *)

Lemma bind_starts {A B : Type} (c : M A) (k : A -> M B) (m : Manager) :
  trace (c m) <> [] -> trace (bind c k m) <> [].
Proof.
  unfold bind, trace. destruct (c m) as [[[a|] m1] t1]; cbn [snd]; intros Ht.
  - destruct (k a m1) as [[o2 m2] t2]. cbn [snd].
    destruct t1; [contradiction|discriminate].
  - exact Ht.
Qed.

Lemma try_catch_starts {A : Type} (c handler : M A) (m : Manager) :
  trace (c m) <> [] -> trace (try_catch c handler m) <> [].
Proof.
  unfold try_catch, trace. destruct (c m) as [[[a|] m1] t1]; cbn [snd]; intros Ht.
  - exact Ht.
  - destruct (handler m1) as [[o2 m2] t2]. cbn [snd].
    destruct t1; [contradiction|discriminate].
Qed.

Lemma send_left_then_right_starts (payload : Uint8Array) (m : Manager) :
  leftTxCharacteristic m <> None ->
  trace (send_left_then_right payload m) <> [].
Proof.
  intros Hl. unfold send_left_then_right. apply bind_starts.
  unfold sendCommand, trace. cbn [snd].
  destruct (leftTxCharacteristic m); [discriminate|contradiction].
Qed.

Lemma transfer_starts {A : Type} (packets : list Uint8Array)
    (endCommand : Uint8Array) (k : M A) (m : Manager) :
  leftTxCharacteristic m <> None ->
  trace ((for_each send_left_then_right packets ;;
          send_left_then_right endCommand ;; k) m) <> [].
Proof.
  intros Hl. destruct packets as [|packet packets].
  - cbn [for_each]. unfold bind at 1. cbn [ret app].
    pose proof (bind_starts (send_left_then_right endCommand) (fun _ => k) m
                  (send_left_then_right_starts endCommand m Hl)) as H.
    destruct (bind (send_left_then_right endCommand) (fun _ => k) m)
      as [[o2 m2] t2]. exact H.
  - apply bind_starts. cbn [for_each]. apply bind_starts.
    apply send_left_then_right_starts. exact Hl.
Qed.

Lemma send_left_then_right_accepted (payload : Uint8Array) (m : Manager)
    (cl cr : Characteristic) :
  leftTxCharacteristic m = Some cl -> rightTxCharacteristic m = Some cr ->
  accepts_all cl -> accepts_all cr ->
  send_left_then_right payload m = (Resolved tt, m, both_arms payload).
Proof.
  intros Hl Hr Hcl Hcr. unfold send_left_then_right, bind, sendCommand.
  rewrite Hl, Hr. cbn. rewrite Hcl, Hcr. reflexivity.
Qed.

Lemma for_each_send_accepted (packets : list Uint8Array) (m : Manager)
    (cl cr : Characteristic) :
  leftTxCharacteristic m = Some cl -> rightTxCharacteristic m = Some cr ->
  accepts_all cl -> accepts_all cr ->
  for_each send_left_then_right packets m
  = (Resolved tt, m, flat_map both_arms packets).
Proof.
  intros Hl Hr Hcl Hcr. induction packets as [|packet packets IH];
    [reflexivity|].
  cbn [for_each flat_map]. unfold bind at 1.
  rewrite (send_left_then_right_accepted packet m cl cr) by assumption.
  rewrite IH. reflexivity.
Qed.

Lemma G2_sendBMPImage_accepted (imageData : BMPImageData) (m : Manager)
    (cl cr : Characteristic) :
  isConnected m = true ->
  width imageData = 576 -> height imageData = 136 ->
  leftTxCharacteristic m = Some cl -> rightTxCharacteristic m = Some cr ->
  accepts_all cl -> accepts_all cr ->
  G2.sendBMPImage imageData m
  = (Resolved true, m,
     flat_map both_arms (G2.createBMPPackets (data imageData))
       ++ both_arms [0x20; 0x0D; 0x0E]
       ++ both_arms
            (u8_of (COMMANDS.CRC_CHECK
                      :: uint32ToBytes
                           (G2.calculateCRC32
                              (u8_of ([0x00; 0x1c; 0x00; 0x00]
                                        ++ G2.convertTo1BitBMP (data imageData))))))).
Proof.
  intros Hconn Hw Hh Hl Hr Hcl Hcr.
  unfold G2.sendBMPImage. unfold bind at 1, get. rewrite Hconn, Hw, Hh.
  cbn [negb Z.eqb Pos.eqb orb app]. unfold try_catch. unfold bind at 1.
  rewrite (for_each_send_accepted _ m cl cr) by assumption.
  unfold bind at 1.
  rewrite (send_left_then_right_accepted _ m cl cr) by assumption.
  unfold bind at 1.
  rewrite (send_left_then_right_accepted _ m cl cr) by assumption.
  unfold ret. rewrite !app_nil_r. reflexivity.
Qed.

Lemma P2_sendBMPImage_accepted (imageData : BMPImageData) (m : Manager)
    (cl cr : Characteristic) :
  isConnected m = true ->
  width imageData <= 488 ->
  leftTxCharacteristic m = Some cl -> rightTxCharacteristic m = Some cr ->
  accepts_all cl -> accepts_all cr ->
  P2.sendBMPImage imageData m
  = (Resolved true, m,
     flat_map both_arms (P2.createBMPPackets (data imageData))
       ++ both_arms [0x20]
       ++ both_arms
            (u8_of (COMMANDS.CRC_CHECK
                      :: uint32ToBytes (P2.calculateCRC32 (data imageData))))).
Proof.
  intros Hconn Hw Hl Hr Hcl Hcr.
  unfold P2.sendBMPImage. unfold bind at 1, get. rewrite Hconn.
  replace (488 <? width imageData) with false by (symmetry; apply Z.ltb_ge; lia).
  cbn [negb]. unfold try_catch. unfold bind at 1.
  rewrite (for_each_send_accepted _ m cl cr) by assumption.
  unfold bind at 1.
  rewrite (send_left_then_right_accepted _ m cl cr) by assumption.
  unfold bind at 1.
  rewrite (send_left_then_right_accepted _ m cl cr) by assumption.
  unfold ret. rewrite !app_nil_r. reflexivity.
Qed.

(** The claim read on [glasses2.ts]: a 576 x 136 image has a declared width
    over 488, and on a connected session the transfer runs to the end,
    starting with the first image packet. *)
Lemma sendBMPImage_576_wide_is_sent :
  488 < width sample_image
  /\ outcome (G2.sendBMPImage sample_image connected_session) = Resolved true
  /\ (exists rest,
        trace (G2.sendBMPImage sample_image connected_session)
        = Write LeftArm [0x15; 0x00; 0x00; 0x1C; 0x00; 0x00; 1; 2; 3] :: rest)
  /\ ~ width_precheck G2.sendBMPImage.
Proof.
  assert (Hrun := G2_sendBMPImage_accepted sample_image connected_session
                    accepting accepting eq_refl eq_refl eq_refl eq_refl eq_refl
                    (fun _ => eq_refl) (fun _ => eq_refl)).
  split; [reflexivity|]. split; [|split].
  - rewrite Hrun. reflexivity.
  - rewrite Hrun. eexists. reflexivity.
  - intros H. destruct (H sample_image connected_session) as [Hreject _].
    rewrite Hrun in Hreject by reflexivity.
    specialize (Hreject eq_refl). discriminate Hreject.
Qed.

(** C2, amended.  In the copy of [unnamed/part_002], an image whose declared
    width is over 488 makes [sendBMPImage] return false with no effect at all,
    and a width of at most 488 passes the check: a connected session with a
    left TX characteristic starts writing.  In [glasses2.ts] the check is on
    the exact size instead: any declared size other than 576 x 136 returns
    false with no effect, and a 576 x 136 image passes. *)
Theorem sendBMPImage_precheck (imageData : BMPImageData) (m : Manager) :
  ((488 < width imageData ->
    P2.sendBMPImage imageData m = (Resolved false, m, []))
   /\ (width imageData <= 488 -> isConnected m = true ->
       leftTxCharacteristic m <> None ->
       trace (P2.sendBMPImage imageData m) <> []))
  /\ ((width imageData <> 576 \/ height imageData <> 136 ->
       G2.sendBMPImage imageData m = (Resolved false, m, []))
      /\ (width imageData = 576 -> height imageData = 136 ->
          isConnected m = true -> leftTxCharacteristic m <> None ->
          trace (G2.sendBMPImage imageData m) <> [])).
Proof.
  split; split.
  - intros Hw. unfold P2.sendBMPImage, bind, get.
    destruct (isConnected m); [|reflexivity]. cbn [negb].
    replace (488 <? width imageData) with true
      by (symmetry; apply Z.ltb_lt; exact Hw).
    reflexivity.
  - intros Hw Hconn Hl. unfold P2.sendBMPImage. rewrite bind_get.
    rewrite Hconn. cbn [negb].
    replace (488 <? width imageData) with false
      by (symmetry; apply Z.ltb_ge; exact Hw).
    apply try_catch_starts, transfer_starts. exact Hl.
  - intros Hsize. unfold G2.sendBMPImage, bind, get.
    destruct (isConnected m); [|reflexivity]. cbn [negb].
    replace (negb (width imageData =? 576) || negb (height imageData =? 136))
      with true; [reflexivity|].
    symmetry. apply orb_true_iff.
    destruct Hsize as [H|H]; [left|right]; apply negb_true_iff, Z.eqb_neq, H.
  - intros Hw Hh Hconn Hl. unfold G2.sendBMPImage. rewrite bind_get.
    rewrite Hconn, Hw, Hh. cbn [negb Z.eqb Pos.eqb orb].
    apply try_catch_starts, transfer_starts. exact Hl.
Qed.

Lemma sendBMPImage_precheck_witness :
  P2.sendBMPImage {| width := 500; height := 64; data := [1; 2; 3] |}
    connected_session
  = (Resolved false, connected_session, [])
  /\ trace (P2.sendBMPImage {| width := 488; height := 64; data := [1; 2; 3] |}
              connected_session) <> []
  /\ G2.sendBMPImage {| width := 488; height := 64; data := [1; 2; 3] |}
       connected_session
     = (Resolved false, connected_session, [])
  /\ trace (G2.sendBMPImage sample_image connected_session) <> [].
Proof.
  split; [|split; [|split]].
  - apply (proj1 (proj1 (sendBMPImage_precheck
                           {| width := 500; height := 64; data := [1; 2; 3] |}
                           connected_session))).
    reflexivity.
  - apply (proj2 (proj1 (sendBMPImage_precheck
                           {| width := 488; height := 64; data := [1; 2; 3] |}
                           connected_session)));
      [discriminate | reflexivity | discriminate].
  - apply (proj1 (proj2 (sendBMPImage_precheck
                           {| width := 488; height := 64; data := [1; 2; 3] |}
                           connected_session))).
    left. discriminate.
  - apply (proj2 (proj2 (sendBMPImage_precheck sample_image connected_session)));
      [reflexivity | reflexivity | reflexivity | discriminate].
Defined.

(** C5, the defect.  In the copy of [unnamed/part_002] the frame written to
    both endpoints between the last image packet and the checksum frame is
    the single byte [0x20], the first element of [BMP_TRANSMISSION_END], and
    the 3-byte marker [0x20 0x0D 0x0E] is written to neither endpoint. *)
Theorem sendBMPImage_end_marker_cut :
  P2.sendBMPImage {| width := 488; height := 64; data := [1; 2; 3] |}
    connected_session
  = (Resolved true, connected_session,
     [Write LeftArm [0x15; 0x00; 0x00; 0x1C; 0x00; 0x00; 1; 2; 3];
      Write RightArm [0x15; 0x00; 0x00; 0x1C; 0x00; 0x00; 1; 2; 3];
      Write LeftArm [0x20];
      Write RightArm [0x20];
      Write LeftArm [0x16; 228; 242; 150; 174];
      Write RightArm [0x16; 228; 242; 150; 174]]).
Proof. vm_compute. reflexivity. Qed.

(** In [glasses2.ts] the marker is written in full, to the left and then to
    the right endpoint, after the image packets and before the checksum
    frame. *)
Lemma G2_sendBMPImage_end_marker (imageData : BMPImageData) (m : Manager)
    (cl cr : Characteristic) :
  isConnected m = true ->
  width imageData = 576 -> height imageData = 136 ->
  leftTxCharacteristic m = Some cl -> rightTxCharacteristic m = Some cr ->
  accepts_all cl -> accepts_all cr ->
  exists crcCommand,
    trace (G2.sendBMPImage imageData m)
    = flat_map both_arms (G2.createBMPPackets (data imageData))
        ++ [Write LeftArm COMMANDS.BMP_TRANSMISSION_END;
            Write RightArm COMMANDS.BMP_TRANSMISSION_END;
            Write LeftArm (COMMANDS.CRC_CHECK :: crcCommand);
            Write RightArm (COMMANDS.CRC_CHECK :: crcCommand)].
Proof.
  intros Hconn Hw Hh Hl Hr Hcl Hcr.
  rewrite (G2_sendBMPImage_accepted imageData m cl cr) by assumption.
  eexists. reflexivity.
Qed.

(** ** CrcEngine: the JavaScript loop against the reference

    The JavaScript register is a signed 32-bit number; its unsigned reading
    [ToUint32] is the register of the reference. *)

Lemma ToUint32_bits (z i : Z) :
  Z.testbit (JS.ToUint32 z) i = (i <? 32) && Z.testbit z i.
Proof. unfold JS.ToUint32. apply Z.testbit_mod_pow2. lia. Qed.

Lemma ToUint32_small (z : Z) : 0 <= z < 2 ^ 32 -> JS.ToUint32 z = z.
Proof. intros H. unfold JS.ToUint32. apply Z.mod_small. exact H. Qed.

Lemma ToUint32_range (z : Z) : 0 <= JS.ToUint32 z < 2 ^ 32.
Proof. unfold JS.ToUint32. apply Z.mod_pos_bound. reflexivity. Qed.

Lemma ToUint32_idem (z : Z) : JS.ToUint32 (JS.ToUint32 z) = JS.ToUint32 z.
Proof. apply ToUint32_small, ToUint32_range. Qed.

Lemma ToUint32_lxor (a b : Z) :
  JS.ToUint32 (Z.lxor a b) = Z.lxor (JS.ToUint32 a) (JS.ToUint32 b).
Proof.
  apply Z.bits_inj'. intros i _.
  rewrite Z.lxor_spec, !ToUint32_bits, Z.lxor_spec.
  destruct (i <? 32); reflexivity.
Qed.

Lemma ToUint32_lor (a b : Z) :
  JS.ToUint32 (Z.lor a b) = Z.lor (JS.ToUint32 a) (JS.ToUint32 b).
Proof.
  apply Z.bits_inj'. intros i _.
  rewrite Z.lor_spec, !ToUint32_bits, Z.lor_spec.
  destruct (i <? 32); reflexivity.
Qed.

Lemma ToUint32_land (a b : Z) :
  JS.ToUint32 (Z.land a b) = Z.land (JS.ToUint32 a) (JS.ToUint32 b).
Proof.
  apply Z.bits_inj'. intros i _.
  rewrite Z.land_spec, !ToUint32_bits, Z.land_spec.
  destruct (i <? 32); reflexivity.
Qed.

Lemma ToUint32_lnot (a : Z) :
  JS.ToUint32 (Z.lnot a) = JS.ToUint32 (Z.lnot (JS.ToUint32 a)).
Proof.
  apply Z.bits_inj'. intros i Hi.
  rewrite !ToUint32_bits, !Z.lnot_spec, ToUint32_bits by exact Hi.
  destruct (Z.ltb_spec i 32); reflexivity.
Qed.

Lemma ToUint32_shiftl (a n : Z) :
  0 <= n ->
  JS.ToUint32 (Z.shiftl a n) = JS.ToUint32 (Z.shiftl (JS.ToUint32 a) n).
Proof.
  intros Hn. apply Z.bits_inj'. intros i Hi.
  rewrite !ToUint32_bits, !Z.shiftl_spec, ToUint32_bits by exact Hi.
  destruct (Z.ltb_spec i 32) as [Hlt|Hge]; [|reflexivity].
  replace (i - n <? 32) with true by (symmetry; apply Z.ltb_lt; lia).
  reflexivity.
Qed.

Lemma ToInt32_zero (z : Z) : JS.ToInt32 z = 0 <-> JS.ToUint32 z = 0.
Proof.
  unfold JS.ToInt32, JS.ToUint32. change (2 ^ 31) with 2147483648.
  change (2 ^ 32) with 4294967296. split; intros H;
    Z.div_mod_to_equations; lia.
Qed.

Lemma ToInt32_of_small (y w : Z) :
  JS.ToUint32 y = w -> 0 <= w < 2 ^ 31 -> JS.ToInt32 y = w.
Proof.
  unfold JS.ToInt32, JS.ToUint32. change (2 ^ 31) with 2147483648.
  change (2 ^ 32) with 4294967296. intros H Hw.
  Z.div_mod_to_equations. lia.
Qed.

Lemma land_pow2 (x n : Z) :
  0 <= n -> Z.land x (2 ^ n) = if Z.testbit x n then 2 ^ n else 0.
Proof.
  intros Hn. apply Z.bits_inj'. intros i Hi.
  rewrite Z.land_spec, Z.pow2_bits_eqb by exact Hn.
  destruct (Z.eqb_spec n i) as [->|Hne].
  - destruct (Z.testbit x i); cbn.
    + rewrite Z.pow2_bits_true by exact Hi. reflexivity.
    + rewrite Z.bits_0. reflexivity.
  - rewrite andb_false_r. destruct (Z.testbit x n).
    + rewrite Z.pow2_bits_false by exact Hne. reflexivity.
    + rewrite Z.bits_0. reflexivity.
Qed.

Lemma ToUint32_bxor (a b : Z) :
  JS.ToUint32 (JS.bxor a b) = Z.lxor (JS.ToUint32 a) (JS.ToUint32 b).
Proof.
  unfold JS.bxor. rewrite ToUint32_ToInt32, ToUint32_lxor, !ToUint32_ToInt32.
  reflexivity.
Qed.

Lemma ToUint32_bor (a b : Z) :
  JS.ToUint32 (JS.bor a b) = Z.lor (JS.ToUint32 a) (JS.ToUint32 b).
Proof.
  unfold JS.bor. rewrite ToUint32_ToInt32, ToUint32_lor, !ToUint32_ToInt32.
  reflexivity.
Qed.

Lemma ToUint32_band (a b : Z) :
  JS.ToUint32 (JS.band a b) = Z.land (JS.ToUint32 a) (JS.ToUint32 b).
Proof.
  unfold JS.band. rewrite ToUint32_ToInt32, ToUint32_land, !ToUint32_ToInt32.
  reflexivity.
Qed.

Lemma ToUint32_shl (a n : Z) :
  0 <= n < 32 ->
  JS.ToUint32 (JS.shl a n) = JS.ToUint32 (Z.shiftl (JS.ToUint32 a) n).
Proof.
  intros Hn. unfold JS.shl.
  replace (JS.ToUint32 n mod 32) with n.
  - rewrite ToUint32_ToInt32, ToUint32_shiftl, ToUint32_ToInt32 by lia.
    reflexivity.
  - unfold JS.ToUint32. change (2 ^ 32) with 4294967296.
    rewrite (Z.mod_small n 4294967296), Z.mod_small; lia.
Qed.

Lemma truthy_msb (crc : Z) :
  JS.truthy (JS.band crc 0x80000000) = Z.testbit (JS.ToUint32 crc) 31.
Proof.
  unfold JS.truthy, JS.band.
  set (masked := Z.land (JS.ToInt32 crc) (JS.ToInt32 0x80000000)).
  assert (Hu : JS.ToUint32 masked
               = if Z.testbit (JS.ToUint32 crc) 31 then 2 ^ 31 else 0).
  { unfold masked. rewrite ToUint32_land, !ToUint32_ToInt32.
    rewrite <- (land_pow2 _ 31) by lia. reflexivity. }
  destruct (Z.eqb_spec (JS.ToInt32 masked) 0) as [Hz|Hnz].
  - apply ToInt32_zero in Hz. rewrite Hu in Hz.
    destruct (Z.testbit (JS.ToUint32 crc) 31); [discriminate Hz|reflexivity].
  - destruct (Z.testbit (JS.ToUint32 crc) 31); [reflexivity|].
    exfalso. apply Hnz. apply ToInt32_zero. exact Hu.
Qed.

Lemma land_ones_32 (z : Z) : Z.land z 0xFFFFFFFF = JS.ToUint32 z.
Proof.
  change 0xFFFFFFFF with (Z.ones 32). rewrite Z.land_ones by lia. reflexivity.
Qed.

Lemma crc_bit_refines (crc : Z) :
  JS.ToUint32 (crc_bit crc) = Reference.step (JS.ToUint32 crc).
Proof.
  unfold crc_bit, Reference.step. rewrite truthy_msb, land_ones_32.
  destruct (Z.testbit (JS.ToUint32 crc) 31).
  - rewrite ToUint32_bxor, ToUint32_shl by lia. reflexivity.
  - rewrite ToUint32_shl by lia. reflexivity.
Qed.

Lemma iter_refines (f g : Z -> Z) :
  (forall z, JS.ToUint32 (f z) = g (JS.ToUint32 z)) ->
  forall n z, JS.ToUint32 (Nat.iter n f z) = Nat.iter n g (JS.ToUint32 z).
Proof.
  intros Hfg. induction n as [|n IH]; intros z; [reflexivity|].
  change (Nat.iter (S n) f z) with (f (Nat.iter n f z)).
  change (Nat.iter (S n) g (JS.ToUint32 z))
    with (g (Nat.iter n g (JS.ToUint32 z))).
  rewrite Hfg, IH. reflexivity.
Qed.

Lemma crc_byte_refines (crc b : Z) :
  0 <= b < 256 ->
  JS.ToUint32 (crc_byte crc b) = Reference.update (JS.ToUint32 crc) b.
Proof.
  intros Hb. unfold crc_byte, Reference.update.
  rewrite (iter_refines crc_bit Reference.step crc_bit_refines).
  rewrite ToUint32_bxor, ToUint32_shl by lia.
  rewrite (ToUint32_small b) by (change (2 ^ 32) with 4294967296; lia).
  rewrite (ToUint32_small (Z.shiftl b 24)); [reflexivity|].
  rewrite Z.shiftl_mul_pow2 by lia.
  change (2 ^ 24) with 16777216. change (2 ^ 32) with 4294967296. lia.
Qed.

Lemma crc_loop_refines (data : Uint8Array) :
  wf_bytes data ->
  forall crc,
    JS.ToUint32 (crc_loop crc data)
    = fold_left Reference.update data (JS.ToUint32 crc).
Proof.
  intros Hwf. induction Hwf as [|b data Hb _ IH]; intros crc.
  - reflexivity.
  - change (crc_loop crc (b :: data)) with (crc_loop (crc_byte crc b) data).
    rewrite IH. rewrite crc_byte_refines by exact Hb. reflexivity.
Qed.

Lemma final_xor_refines (crc : Z) :
  JS.shr (JS.bnot crc) 0 = Z.land (Z.lnot (JS.ToUint32 crc)) 0xFFFFFFFF.
Proof.
  unfold JS.shr, JS.bnot. change (JS.ToUint32 0 mod 32) with 0.
  rewrite Z.shiftr_0_r, land_ones_32, ToUint32_ToInt32.
  rewrite ToUint32_lnot, ToUint32_ToInt32. reflexivity.
Qed.

Lemma P2_calculateCRC32_reference (data : Uint8Array) :
  wf_bytes data -> P2.calculateCRC32 data = Reference.crc32 data.
Proof.
  intros Hwf. unfold P2.calculateCRC32, Reference.crc32.
  rewrite final_xor_refines, crc_loop_refines by exact Hwf. reflexivity.
Qed.

Lemma wf_storageAddress : wf_bytes storageAddress.
Proof. repeat constructor; cbn; lia. Qed.

Lemma G2_calculateCRC32_reference (data : Uint8Array) :
  wf_bytes data ->
  G2.calculateCRC32 data
  = G2.big_endian (Reference.crc32 (storageAddress ++ data)).
Proof.
  intros Hwf. unfold G2.calculateCRC32, Reference.crc32. cbv zeta.
  rewrite final_xor_refines. f_equal. f_equal. f_equal.
  rewrite fold_left_app.
  rewrite crc_loop_refines, crc_loop_refines by auto using wf_storageAddress.
  reflexivity.
Qed.

(** The [return] expression of [glasses2.ts] reverses the four bytes. *)

Lemma land_byte_mask (r k : Z) :
  0 <= k -> Z.land r (255 * 2 ^ k) = ((r / 2 ^ k) mod 2 ^ 8) * 2 ^ k.
Proof.
  intros Hk. apply Z.bits_inj'. intros i Hi.
  rewrite Z.land_spec, !Z.mul_pow2_bits by exact Hk.
  change 255 with (Z.ones 8).
  rewrite Z.testbit_ones, Z.testbit_mod_pow2 by lia.
  destruct (Z.leb_spec 0 (i - k)) as [Hge|Hlt].
  - rewrite Z.div_pow2_bits by lia. replace (i - k + k) with i by lia.
    cbn [andb]. apply andb_comm.
  - rewrite (Z.testbit_neg_r _ (i - k)) by lia.
    cbn [andb]. rewrite !andb_false_r. reflexivity.
Qed.

Lemma lor_disjoint (hi lo k : Z) :
  0 <= k -> 0 <= lo < 2 ^ k -> Z.lor (hi * 2 ^ k) lo = hi * 2 ^ k + lo.
Proof.
  intros Hk Hlo.
  assert (Hland : Z.land (hi * 2 ^ k) lo = 0).
  { apply Z.bits_inj'. intros i Hi. rewrite Z.land_spec, Z.bits_0.
    destruct (Z.lt_ge_cases i k) as [Hlt|Hge].
    - rewrite Z.mul_pow2_bits_low by exact Hlt. reflexivity.
    - rewrite <- (Z.mod_small lo (2 ^ k)) by exact Hlo.
      rewrite Z.mod_pow2_bits_high by lia. apply andb_false_r. }
  rewrite <- Z.lxor_lor by exact Hland. symmetry.
  apply Z.add_nocarry_lxor. exact Hland.
Qed.

Lemma big_endian_byte_swap (r : Z) :
  0 <= r < 2 ^ 32 ->
  G2.big_endian r = JS.ToInt32 (Reference.byte_swap r).
Proof.
  intros Hr. change (2 ^ 32) with 4294967296 in Hr.
  unfold G2.big_endian. unfold JS.bor at 1. apply ToInt32_congr.
  rewrite ToUint32_lor, !ToUint32_ToInt32, !ToUint32_bor.
  assert (H1 : JS.ToUint32 (JS.shl r 24) = (r mod 256) * 2 ^ 24).
  { rewrite ToUint32_shl by lia. rewrite (ToUint32_small r) by exact Hr.
    rewrite Z.shiftl_mul_pow2 by lia. unfold JS.ToUint32.
    change (2 ^ 24) with 16777216. change (2 ^ 32) with 4294967296.
    Z.div_mod_to_equations. lia. }
  assert (H2 : JS.ToUint32 (JS.shl (JS.band r 0xFF00) 8)
               = ((r / 2 ^ 8) mod 256) * 2 ^ 16).
  { rewrite ToUint32_shl, ToUint32_band by lia.
    rewrite (ToUint32_small r) by exact Hr.
    rewrite (ToUint32_small 0xFF00) by (cbn; lia).
    change 0xFF00 with (255 * 2 ^ 8). rewrite land_byte_mask by lia.
    change (2 ^ 8) with 256. rewrite Z.shiftl_mul_pow2 by lia.
    pose proof (Z.mod_pos_bound (r / 256) 256).
    rewrite ToUint32_small;
      change (2 ^ 32) with 4294967296; change (2 ^ 16) with 65536;
      change (2 ^ 8) with 256; lia. }
  assert (H3 : JS.ToUint32 (JS.sar (JS.band r 0xFF0000) 8)
               = ((r / 2 ^ 16) mod 256) * 2 ^ 8).
  { assert (Hb : JS.band r 0xFF0000 = ((r / 2 ^ 16) mod 256) * 2 ^ 16).
    { unfold JS.band. apply ToInt32_of_small.
      - rewrite ToUint32_land, !ToUint32_ToInt32.
        rewrite (ToUint32_small r) by exact Hr.
        rewrite (ToUint32_small 0xFF0000) by (cbn; lia).
        change 0xFF0000 with (255 * 2 ^ 16). rewrite land_byte_mask by lia.
        reflexivity.
      - pose proof (Z.mod_pos_bound (r / 2 ^ 16) 256).
        change (2 ^ 31) with 2147483648. change (2 ^ 16) with 65536 in *. lia. }
    unfold JS.sar. rewrite Hb.
    pose proof (Z.mod_pos_bound (r / 2 ^ 16) 256) as Hbyte.
    change (JS.ToUint32 8 mod 32) with 8.
    rewrite ToInt32_small
      by (change (2 ^ 31) with 2147483648; change (2 ^ 16) with 65536 in *; lia).
    rewrite Z.shiftr_div_pow2 by lia.
    set (b2 := (r / 2 ^ 16) mod 256) in *.
    replace (b2 * 2 ^ 16 / 2 ^ 8) with (b2 * 2 ^ 8).
    - apply ToUint32_small. change (2 ^ 32) with 4294967296.
      change (2 ^ 8) with 256. lia.
    - change (2 ^ 16) with 65536. change (2 ^ 8) with 256.
      Z.div_mod_to_equations. lia. }
  assert (H4 : JS.ToUint32 (JS.shr r 24) = r / 2 ^ 24).
  { unfold JS.shr. change (JS.ToUint32 24 mod 32) with 24.
    rewrite (ToUint32_small r) by exact Hr.
    rewrite Z.shiftr_div_pow2 by lia. apply ToUint32_small.
    change (2 ^ 24) with 16777216. change (2 ^ 32) with 4294967296.
    Z.div_mod_to_equations. lia. }
  rewrite H1, H2, H3, H4. unfold Reference.byte_swap.
  pose proof (Z.mod_pos_bound r 256) as B0.
  pose proof (Z.mod_pos_bound (r / 2 ^ 8) 256) as B1.
  pose proof (Z.mod_pos_bound (r / 2 ^ 16) 256) as B2.
  assert (B3 : 0 <= r / 2 ^ 24 < 256).
  { change (2 ^ 24) with 16777216. Z.div_mod_to_equations. lia. }
  rewrite (Z.mod_small (r / 2 ^ 24) 256) by exact B3.
  set (b0 := r mod 256) in *. set (b1 := (r / 2 ^ 8) mod 256) in *.
  set (b2 := (r / 2 ^ 16) mod 256) in *. set (b3 := r / 2 ^ 24) in *.
  change (2 ^ 24) with 16777216. change (2 ^ 16) with 65536.
  change (2 ^ 8) with 256 in *.
  rewrite (ToUint32_small (b0 * 16777216 + b1 * 65536 + b2 * 256 + b3))
    by (change (2 ^ 32) with 4294967296; lia).
  change 16777216 with (2 ^ 24) at 1.
  rewrite (lor_disjoint b0 (b1 * 65536) 24)
    by (change (2 ^ 24) with 16777216; lia).
  replace (b0 * 2 ^ 24 + b1 * 65536) with ((b0 * 256 + b1) * 2 ^ 16)
    by (change (2 ^ 24) with 16777216; change (2 ^ 16) with 65536; lia).
  rewrite (lor_disjoint (b0 * 256 + b1) (b2 * 256) 16)
    by (change (2 ^ 16) with 65536; lia).
  replace ((b0 * 256 + b1) * 2 ^ 16 + b2 * 256)
    with (((b0 * 256 + b1) * 256 + b2) * 2 ^ 8)
    by (change (2 ^ 16) with 65536; change (2 ^ 8) with 256; lia).
  rewrite (lor_disjoint ((b0 * 256 + b1) * 256 + b2) b3 8)
    by (change (2 ^ 8) with 256; lia).
  change (2 ^ 8) with 256. lia.
Qed.

Lemma crc32_range (input : list Z) : 0 <= Reference.crc32 input < 2 ^ 32.
Proof.
  unfold Reference.crc32. rewrite land_ones_32. apply ToUint32_range.
Qed.

(** The claim read on [glasses2.ts]: on the bytes of "123456789" the reference
    gives the check value [0xFC891918], and so does the copy of
    [unnamed/part_002], but [calculateCRC32] of [glasses2.ts] returns another
    number. *)
Lemma calculateCRC32_glasses2_differs :
  Reference.crc32 [49; 50; 51; 52; 53; 54; 55; 56; 57] = 0xFC891918
  /\ P2.calculateCRC32 [49; 50; 51; 52; 53; 54; 55; 56; 57] = 0xFC891918
  /\ G2.calculateCRC32 [49; 50; 51; 52; 53; 54; 55; 56; 57] = -956055145
  /\ G2.calculateCRC32 [49; 50; 51; 52; 53; 54; 55; 56; 57]
     <> Reference.crc32 [49; 50; 51; 52; 53; 54; 55; 56; 57].
Proof. vm_compute. repeat split. discriminate. Qed.

(** C4, amended.  On every byte sequence, [calculateCRC32] of the copy in
    [unnamed/part_002] returns the reference CRC-32 of the input: register
    [0xFFFFFFFF] at the start, each byte XORed into bits 31..24 and followed by
    8 MSB-first steps with polynomial [0x04C11DB7], one's complement masked to
    32 bits at the end.  [calculateCRC32] of [glasses2.ts] returns the
    reference CRC-32 of the storage address [00 1C 00 00] followed by the
    input, with its four bytes reversed, as a signed 32-bit integer. *)
Theorem calculateCRC32_variants (input : Uint8Array) :
  wf_bytes input ->
  P2.calculateCRC32 input = Reference.crc32 input
  /\ G2.calculateCRC32 input
     = JS.ToInt32
         (Reference.byte_swap (Reference.crc32 (storageAddress ++ input))).
Proof.
  intros Hwf. split.
  - apply P2_calculateCRC32_reference. exact Hwf.
  - rewrite G2_calculateCRC32_reference by exact Hwf.
    apply big_endian_byte_swap, crc32_range.
Qed.

Lemma calculateCRC32_variants_witness :
  P2.calculateCRC32 [49; 50; 51; 52; 53; 54; 55; 56; 57]
  = Reference.crc32 [49; 50; 51; 52; 53; 54; 55; 56; 57]
  /\ G2.calculateCRC32 [49; 50; 51; 52; 53; 54; 55; 56; 57]
     = JS.ToInt32
         (Reference.byte_swap
            (Reference.crc32
               (storageAddress ++ [49; 50; 51; 52; 53; 54; 55; 56; 57]))).
Proof.
  apply (calculateCRC32_variants [49; 50; 51; 52; 53; 54; 55; 56; 57]).
  repeat constructor; lia.
Defined.

(** * Further properties of the controller *)

(** ** Byte order of 32-bit values *)

Lemma sar_shr_low_byte (x k : Z) :
  k = 0 \/ k = 8 \/ k = 16 \/ k = 24 ->
  JS.band (JS.sar x k) 0xFF = JS.band (JS.shr x k) 0xFF.
Proof.
  intros Hk. rewrite !band_255. unfold JS.sar, JS.shr.
  assert (Hc : JS.ToUint32 k mod 32 = k).
  { destruct Hk as [->|[->|[->| ->]]]; reflexivity. }
  rewrite Hc, !Z.shiftr_div_pow2 by lia.
  unfold JS.ToInt32, JS.ToUint32. change (2 ^ 31) with 2147483648.
  change (2 ^ 32) with 4294967296.
  destruct Hk as [->|[->|[->| ->]]];
    [change (2 ^ 0) with 1 | change (2 ^ 8) with 256
     | change (2 ^ 16) with 65536 | change (2 ^ 24) with 16777216];
    Z.div_mod_to_equations; lia.
Qed.

Lemma shr_byte (x k : Z) :
  k = 8 \/ k = 16 \/ k = 24 ->
  JS.band (JS.shr x k) 0xFF = (JS.ToUint32 x / 2 ^ k) mod 256.
Proof.
  intros Hk. rewrite band_255. unfold JS.shr.
  assert (Hc : JS.ToUint32 k mod 32 = k).
  { destruct Hk as [->|[->| ->]]; reflexivity. }
  rewrite Hc, Z.shiftr_div_pow2 by lia. reflexivity.
Qed.

Lemma uint32ToBytes_bytes (value : Z) :
  length (uint32ToBytes value) = 4%nat
  /\ wf_bytes (uint32ToBytes value)
  /\ big_endian_value (uint32ToBytes value) = JS.ToUint32 value.
Proof.
  unfold uint32ToBytes. rewrite !shr_byte by lia. rewrite band_255.
  pose proof (ToUint32_range value) as Hu.
  assert (Hlow : value mod 256 = JS.ToUint32 value mod 256).
  { unfold JS.ToUint32. change (2 ^ 32) with 4294967296.
    Z.div_mod_to_equations. lia. }
  rewrite Hlow. set (u := JS.ToUint32 value) in *.
  change (2 ^ 32) with 4294967296 in Hu.
  change (2 ^ 24) with 16777216. change (2 ^ 16) with 65536.
  change (2 ^ 8) with 256.
  split; [reflexivity|]. split.
  - repeat constructor; apply Z.mod_pos_bound; lia.
  - unfold big_endian_value. cbn [fold_left].
    Z.div_mod_to_equations. lia.
Qed.

(** X1.  For every integer, [uint32ToBytes] gives four bytes, most significant
    first, of the value read as an unsigned 32-bit number: negative inputs,
    such as the checksum of [glasses2.ts], lose nothing. *)
Theorem uint32ToBytes_big_endian (value : Z) :
  length (uint32ToBytes value) = 4%nat
  /\ wf_bytes (uint32ToBytes value)
  /\ big_endian_value (uint32ToBytes value) = JS.ToUint32 value.
Proof. intros. eapply uint32ToBytes_bytes; eauto. Qed.

Lemma sendCommand_left_only (payload : Uint8Array) (m : Manager) :
  sendCommand payload true false m
  = match leftTxCharacteristic m with
    | Some c => (if writeWithResponse c payload then Resolved tt else Rejected,
                 m, [Write LeftArm payload])
    | None => (Resolved tt, m, [])
    end.
Proof.
  unfold sendCommand. destruct (leftTxCharacteristic m) as [c|];
    [|destruct (rightTxCharacteristic m); reflexivity].
  cbn. rewrite andb_true_r. destruct (rightTxCharacteristic m); reflexivity.
Qed.

Lemma sendCommand_right_only (payload : Uint8Array) (m : Manager) :
  sendCommand payload false true m
  = match rightTxCharacteristic m with
    | Some c => (if writeWithResponse c payload then Resolved tt else Rejected,
                 m, [Write RightArm payload])
    | None => (Resolved tt, m, [])
    end.
Proof.
  unfold sendCommand. destruct (rightTxCharacteristic m) as [c|]; cbn.
  - rewrite andb_true_r. reflexivity.
  - reflexivity.
Qed.

(** X2.  [clearNotification] frames the message id like [uint32ToBytes] does,
    although it shifts with [>>] where [uint32ToBytes] uses [>>>]: the frame
    is [0x4C] followed by the four big-endian bytes of the id modulo [2^32].
    It goes to the left endpoint only, and the call rejects exactly when that
    write is refused. *)
Theorem clearNotification_frame (msgId : Z) (m : Manager) :
  clearNotification msgId m
  = sendCommand (COMMANDS.CLEAR_NOTIFICATION :: uint32ToBytes msgId) true false m
  /\ big_endian_value (uint32ToBytes msgId) = JS.ToUint32 msgId
  /\ writes_to RightArm (trace (clearNotification msgId m)) = [].
Proof.
  assert (Hframe : clearNotification msgId m
                   = sendCommand (COMMANDS.CLEAR_NOTIFICATION :: uint32ToBytes msgId)
                       true false m).
  { unfold clearNotification, uint32ToBytes, u8_of. cbn [map].
    rewrite !(sar_shr_low_byte msgId) by lia.
    rewrite !band_255. unfold JS.ToUint8. rewrite !Z.mod_mod by lia.
    reflexivity. }
  split; [exact Hframe|]. split; [apply uint32ToBytes_bytes|].
  rewrite Hframe, sendCommand_left_only.
  destruct (leftTxCharacteristic m); reflexivity.
Qed.

(** ** TextPaginator: what the wrapping keeps *)

Lemma split_space_concat (s : JsString) :
  concat (split_space s) = without_spaces s.
Proof.
  induction s as [|c r IH]; [reflexivity|].
  cbn [split_space without_spaces filter].
  destruct (Z.eqb_spec c SPACE) as [Heq|Hne]; cbn [negb].
  - cbn [concat app]. exact IH.
  - fold (without_spaces r). rewrite <- IH.
    destruct (split_space r) as [|w ws]; reflexivity.
Qed.

Lemma without_spaces_word (word : JsString) :
  ~ In SPACE word -> without_spaces word = word.
Proof.
  induction word as [|c r IH]; intros Hw; [reflexivity|].
  cbn [without_spaces filter]. destruct (Z.eqb_spec c SPACE) as [Heq|Hne].
  - exfalso. apply Hw. left. exact Heq.
  - cbn [negb]. fold (without_spaces r). rewrite IH; [reflexivity|].
    intros Hin. apply Hw. right. exact Hin.
Qed.

Lemma without_spaces_app (a b : JsString) :
  without_spaces (a ++ b) = without_spaces a ++ without_spaces b.
Proof. apply filter_app. Qed.

Lemma line_step_keeps (lines : list JsString) (currentLine word : JsString) :
  ~ In SPACE word ->
  without_spaces (concat (fst (line_step (lines, currentLine) word))
                    ++ snd (line_step (lines, currentLine) word))
  = without_spaces (concat lines ++ currentLine) ++ word.
Proof.
  intros Hw. pose proof (without_spaces_word word Hw) as Hword.
  unfold line_step.
  destruct (fits _).
  - cbn [fst snd]. destruct currentLine as [|c cur]; cbn [nonempty].
    + rewrite app_nil_r, !without_spaces_app, Hword. reflexivity.
    + rewrite !without_spaces_app. cbn [without_spaces filter].
      change (SPACE =? SPACE) with true. cbn [negb].
      fold (without_spaces word). rewrite Hword.
      rewrite <- !app_assoc. reflexivity.
  - destruct currentLine as [|c cur]; cbn [nonempty fst snd].
    + rewrite concat_app. cbn [concat]. rewrite !app_nil_r.
      rewrite without_spaces_app, Hword. reflexivity.
    + rewrite concat_app. cbn [concat]. rewrite app_nil_r.
      rewrite <- app_assoc, !without_spaces_app, Hword.
      rewrite <- !app_assoc. reflexivity.
Qed.

Lemma fold_line_step_keeps (words : list JsString) :
  Forall (fun word => ~ In SPACE word) words ->
  forall st,
    without_spaces (concat (fst (fold_left line_step words st))
                      ++ snd (fold_left line_step words st))
    = without_spaces (concat (fst st) ++ snd st) ++ concat words.
Proof.
  induction 1 as [|word words Hw _ IH]; intros [lines currentLine].
  - cbn. rewrite app_nil_r. reflexivity.
  - cbn [fold_left concat]. rewrite IH.
    pose proof (line_step_keeps lines currentLine word Hw) as Hstep.
    destruct (line_step (lines, currentLine) word) as [lines' currentLine'].
    cbn [fst snd] in *. rewrite Hstep, <- app_assoc. reflexivity.
Qed.

Lemma lines_flush_concat (st : list JsString * JsString) :
  concat (let '(lines, currentLine) := st in
          if nonempty currentLine then lines ++ [currentLine] else lines)
  = concat (fst st) ++ snd st.
Proof.
  destruct st as [lines [|c cur]]; cbn [fst snd nonempty].
  - rewrite app_nil_r. reflexivity.
  - rewrite concat_app. cbn [concat]. rewrite app_nil_r. reflexivity.
Qed.

Lemma lines_keep_text (text : JsString) :
  without_spaces (concat (splitTextIntoLines text)) = without_spaces text.
Proof.
  unfold splitTextIntoLines. rewrite lines_flush_concat.
  rewrite (fold_line_step_keeps (split_space text) (split_space_words text)).
  cbn [fst snd concat app without_spaces filter]. apply split_space_concat.
Qed.

(** X3.  [splitTextIntoLines] loses and reorders no character other than
    spaces: the lines one after the other, spaces removed, are the text with
    its spaces removed. *)
Theorem splitTextIntoLines_keeps_text (text : JsString) :
  without_spaces (concat (splitTextIntoLines text)) = without_spaces text.
Proof. intros. eapply lines_keep_text; eauto. Qed.

Lemma word_empty_or_text (word : JsString) :
  ~ In SPACE word -> word = [] \/ starts_with_text word.
Proof.
  destruct word as [|c r]; [left; reflexivity|].
  intros Hw. right. cbn. intros Heq. apply Hw. left. exact Heq.
Qed.

Lemma line_step_text (lines : list JsString) (currentLine word : JsString) :
  Forall starts_with_text lines ->
  currentLine = [] \/ starts_with_text currentLine ->
  ~ In SPACE word ->
  Forall starts_with_text (fst (line_step (lines, currentLine) word))
  /\ (snd (line_step (lines, currentLine) word) = []
      \/ starts_with_text (snd (line_step (lines, currentLine) word))).
Proof.
  intros Hl Hc Hw. pose proof (word_empty_or_text word Hw) as Hword.
  unfold line_step. destruct currentLine as [|c cur]; cbn [nonempty].
  - destruct (fits (length word)) eqn:Hfit; cbn [fst snd].
    + split; assumption.
    + split; [|left; reflexivity]. apply Forall_app. split; [exact Hl|].
      constructor; [|constructor].
      destruct Hword as [->|Ht]; [discriminate Hfit|exact Ht].
  - destruct Hc as [Hc|Hc]; [discriminate Hc|].
    destruct (fits _); cbn [fst snd].
    + split; [exact Hl|]. right. exact Hc.
    + split; [|exact Hword]. apply Forall_app. split; [exact Hl|].
      constructor; [exact Hc|constructor].
Qed.

Lemma fold_line_step_text (words : list JsString) :
  Forall (fun word => ~ In SPACE word) words ->
  forall (lines : list JsString) (currentLine : JsString),
    Forall starts_with_text lines ->
    currentLine = [] \/ starts_with_text currentLine ->
    Forall starts_with_text (fst (fold_left line_step words (lines, currentLine)))
    /\ (snd (fold_left line_step words (lines, currentLine)) = []
        \/ starts_with_text (snd (fold_left line_step words (lines, currentLine)))).
Proof.
  induction 1 as [|word words Hw _ IH]; intros lines currentLine Hl Hc.
  - cbn. auto.
  - cbn [fold_left].
    pose proof (line_step_text lines currentLine word Hl Hc Hw) as Hstep.
    destruct (line_step (lines, currentLine) word) as [lines' currentLine'].
    cbn [fst snd] in Hstep. destruct Hstep as [Hl' Hc'].
    apply IH; assumption.
Qed.

Lemma lines_flush_text (st : list JsString * JsString) :
  Forall starts_with_text (fst st) ->
  snd st = [] \/ starts_with_text (snd st) ->
  Forall starts_with_text
    (let '(lines, currentLine) := st in
     if nonempty currentLine then lines ++ [currentLine] else lines).
Proof.
  destruct st as [lines [|c cur]]; cbn [fst snd nonempty]; intros Hl Hc.
  - exact Hl.
  - apply Forall_app. split; [exact Hl|]. constructor; [|constructor].
    destruct Hc as [Hc|Hc]; [discriminate Hc|exact Hc].
Qed.

Lemma lines_not_blank (text : JsString) :
  Forall starts_with_text (splitTextIntoLines text).
Proof.
  unfold splitTextIntoLines.
  apply lines_flush_text;
    apply (fold_line_step_text (split_space text) (split_space_words text)
             [] [] (Forall_nil _) (or_introl eq_refl)).
Qed.

(** X4.  [splitTextIntoLines] returns no empty line and no line that starts
    with a space, whatever the spacing of the text. *)
Theorem splitTextIntoLines_no_blank_line (text : JsString) :
  Forall starts_with_text (splitTextIntoLines text).
Proof. intros. eapply lines_not_blank; eauto. Qed.

Lemma blank_text_no_lines (text : JsString) :
  without_spaces text = [] -> splitTextIntoLines text = [].
Proof.
  intros Hblank. pose proof (lines_keep_text text) as Hkeep.
  pose proof (lines_not_blank text) as Htext.
  rewrite Hblank in Hkeep.
  destruct (splitTextIntoLines text) as [|line lines]; [reflexivity|].
  exfalso. inversion Htext as [|? ? Hline _]; subst.
  destruct line as [|c r]; [exact Hline|].
  cbn [concat app without_spaces filter] in Hkeep.
  destruct (Z.eqb_spec c SPACE) as [Heq|Hne]; [exact (Hline Heq)|].
  discriminate Hkeep.
Qed.

Lemma for_range_in (step fuel i0 len i : nat) :
  In i (for_range step fuel i0 len) -> (i < len)%nat.
Proof.
  revert i0. induction fuel as [|fuel IH]; intros i0; cbn [for_range].
  - intros [].
  - destruct (Nat.ltb_spec i0 len) as [Hlt|Hge]; [|intros []].
    intros [<-|Hin]; [exact Hlt|]. exact (IH _ Hin).
Qed.

Lemma slice_length {A : Type} (a : list A) (i n : nat) :
  length (slice a i (i + n)) = Nat.min n (length a - i).
Proof.
  unfold slice. replace (i + n - i)%nat with n by lia.
  rewrite length_firstn, length_skipn. reflexivity.
Qed.

Lemma stride_chunks {A : Type} (a : list A) (step : nat) :
  (0 < step)%nat ->
  length (map (fun i => slice a i (i + step)) (for_from_zero step (length a)))
  = ((length a + step - 1) / step)%nat
  /\ Forall (fun chunk => (1 <= length chunk <= step)%nat)
       (map (fun i => slice a i (i + step)) (for_from_zero step (length a)))
  /\ concat (map (fun i => slice a i (i + step)) (for_from_zero step (length a)))
     = a.
Proof.
  intros Hstep. split; [|split].
  - rewrite length_map, for_from_zero_multiples by exact Hstep.
    rewrite length_map, length_seq. reflexivity.
  - apply Forall_forall. intros chunk Hin. apply in_map_iff in Hin.
    destruct Hin as [i [<- Hi]]. apply for_range_in in Hi.
    rewrite slice_length. lia.
  - unfold for_from_zero. rewrite for_range_concat by lia. reflexivity.
Qed.

Lemma text_packets_chunks (lines : list JsString) :
  length (createTextPackets lines)
  = ((length (encode (join_newline lines)) + 183) / 184)%nat
  /\ Forall (fun chunk => (1 <= length chunk <= 184)%nat)
       (createTextPackets lines)
  /\ concat (createTextPackets lines) = encode (join_newline lines)
  /\ createTextPackets [] = [].
Proof.
  destruct (stride_chunks (encode (join_newline lines)) 184 ltac:(lia))
    as [Hlen [Hsize Hcat]].
  split; [|split; [|split]].
  - etransitivity; [exact Hlen|]. f_equal. lia.
  - exact Hsize.
  - exact Hcat.
  - reflexivity.
Qed.

(** X5.  [createTextPackets] cuts the UTF-8 bytes of the lines joined by
    newlines into [ceil(len/184)] chunks; every chunk has between 1 and 184
    bytes and the chunks in order are those bytes again.  No chunk is made for
    an empty list of lines. *)
Theorem createTextPackets_chunks (lines : list JsString) :
  length (createTextPackets lines)
  = ((length (encode (join_newline lines)) + 183) / 184)%nat
  /\ Forall (fun chunk => (1 <= length chunk <= 184)%nat)
       (createTextPackets lines)
  /\ concat (createTextPackets lines) = encode (join_newline lines)
  /\ createTextPackets [] = [].
Proof. intros. eapply text_packets_chunks; eauto. Qed.

(** ** What a method writes *)

Lemma written_app (t1 t2 : list Effect) :
  written (t1 ++ t2) = written t1 ++ written t2.
Proof. apply flat_map_app. Qed.

Lemma writes_only_ret {A : Type} (P : Uint8Array -> Prop) (a : A) :
  writes_only P (ret a).
Proof. intros m. constructor. Qed.

Lemma writes_only_bind {A B : Type} (P : Uint8Array -> Prop) (c : M A)
    (k : A -> M B) :
  writes_only P c -> (forall a, writes_only P (k a)) ->
  writes_only P (bind c k).
Proof.
  intros Hc Hk m. specialize (Hc m). unfold bind.
  destruct (c m) as [[[a|] m1] t1]; cbn [trace snd] in *; [|exact Hc].
  specialize (Hk a m1). destruct (k a m1) as [[o2 m2] t2].
  cbn [trace snd] in *. rewrite written_app. apply Forall_app. split; assumption.
Qed.

Lemma writes_only_get_bind {A : Type} (P : Uint8Array -> Prop)
    (k : Manager -> M A) :
  (forall m, writes_only P (k m)) -> writes_only P (bind get k).
Proof. intros Hk m. rewrite bind_get. apply Hk. Qed.

Lemma writes_only_try_catch {A : Type} (P : Uint8Array -> Prop)
    (c handler : M A) :
  writes_only P c -> writes_only P handler ->
  writes_only P (try_catch c handler).
Proof.
  intros Hc Hh m. specialize (Hc m). unfold try_catch.
  destruct (c m) as [[[a|] m1] t1]; cbn [trace snd] in *; [exact Hc|].
  specialize (Hh m1). destruct (handler m1) as [[o2 m2] t2].
  cbn [trace snd] in *. rewrite written_app. apply Forall_app. split; assumption.
Qed.

Lemma writes_only_for_each {A : Type} (P : Uint8Array -> Prop)
    (f : A -> M unit) (l : list A) :
  (forall x, In x l -> writes_only P (f x)) -> writes_only P (for_each f l).
Proof.
  induction l as [|x l IH]; intros Hf; cbn [for_each].
  - apply writes_only_ret.
  - apply writes_only_bind; [apply Hf; left; reflexivity|].
    intros _. apply IH. intros y Hy. apply Hf. right. exact Hy.
Qed.

Lemma writes_only_sendCommand (P : Uint8Array -> Prop) (payload : Uint8Array)
    (toLeft toRight : bool) :
  P payload -> writes_only P (sendCommand payload toLeft toRight).
Proof.
  intros HP m. unfold sendCommand, trace. cbn [snd].
  destruct toLeft, (leftTxCharacteristic m), toRight,
    (rightTxCharacteristic m); cbn; repeat constructor; exact HP.
Qed.

Lemma writes_only_createTextPacket_bind {A : Type} (P : Uint8Array -> Prop)
    (chunk : Uint8Array) (a b c d : Z) (k : Uint8Array -> M A) :
  (forall sequence,
     writes_only P
       (k (u8_of [COMMANDS.SEND_TEXT; sequence; b; a; 0x71; 0; 0; c; d] ++ chunk))) ->
  writes_only P (bind (createTextPacket chunk a b c d) k).
Proof.
  intros Hk m. unfold bind at 1. rewrite createTextPacket_run.
  specialize (Hk (sequenceNumber m) (set_sequenceNumber (sequenceNumber m + 1) m)).
  destruct (k _ _) as [[o2 m2] t2]. exact Hk.
Qed.

Lemma indexed_in {A : Type} (l : list A) (i : nat) (x : A) :
  In (i, x) (indexed l) -> In x l.
Proof. unfold indexed. apply in_combine_r. Qed.

(** X6.  Whatever the text, the position and the outcome of the writes, every
    payload that [sendText] hands to the transport is a text frame: it starts
    with the opcode [0x4E] and has between 10 and 193 bytes, 9 of header and
    at most 184 of text. *)
Theorem sendText_frames (text : JsString) (x y position : Z) (replace : bool) :
  writes_only (fun payload => (10 <= length payload <= 193)%nat
                              /\ nth 0 payload 0 = COMMANDS.SEND_TEXT)
              (G2.sendText text x y replace)
  /\ writes_only (fun payload => (10 <= length payload <= 193)%nat
                                 /\ nth 0 payload 0 = COMMANDS.SEND_TEXT)
                 (P2.sendText text position).
Proof.
  split.
  - unfold G2.sendText. apply writes_only_get_bind. intros m.
    destruct (negb (isConnected m)); [apply writes_only_ret|].
    apply writes_only_bind; [|intros _; apply writes_only_ret].
    apply writes_only_for_each. intros [screenIndex screen] _.
    apply writes_only_for_each. intros [packetIndex chunk] Hin.
    apply indexed_in in Hin.
    destruct (text_packets_chunks screen) as [_ [Hsize _]].
    rewrite Forall_forall in Hsize. specialize (Hsize chunk Hin).
    apply writes_only_createTextPacket_bind. intros sequence.
    apply writes_only_sendCommand. cbn [u8_of map app u8_set length nth].
    split; [lia|reflexivity].
  - unfold P2.sendText. apply writes_only_get_bind. intros m.
    destruct (negb (isConnected m)); [apply writes_only_ret|].
    apply writes_only_try_catch; [|apply writes_only_ret].
    apply writes_only_bind; [|intros _; apply writes_only_ret].
    apply writes_only_for_each. intros [screenIndex screen] _.
    apply writes_only_for_each. intros [packetIndex chunk] Hin.
    apply indexed_in in Hin.
    destruct (text_packets_chunks screen) as [_ [Hsize _]].
    rewrite Forall_forall in Hsize. specialize (Hsize chunk Hin).
    apply writes_only_createTextPacket_bind. intros sequence.
    apply writes_only_sendCommand. cbn [u8_of map app u8_set length nth].
    split; [lia|reflexivity].
Qed.

(** X7.  On a connected session, a text that is empty or made of spaces only
    yields no line, so [sendText] writes nothing, leaves the sequence number
    alone and returns true. *)
Theorem sendText_blank (text : JsString) (x y position : Z) (replace : bool)
    (m : Manager) :
  isConnected m = true -> without_spaces text = [] ->
  G2.sendText text x y replace m = (Resolved true, m, [])
  /\ P2.sendText text position m = (Resolved true, m, []).
Proof.
  intros Hconn Hblank. apply blank_text_no_lines in Hblank.
  unfold G2.sendText, P2.sendText. rewrite !bind_get, Hconn, Hblank.
  split; reflexivity.
Qed.

Lemma sendText_blank_witness :
  G2.sendText (js "   ") 0 0 false connected_session
  = (Resolved true, connected_session, [])
  /\ P2.sendText (js "   ") 0 connected_session
     = (Resolved true, connected_session, []).
Proof.
  apply (sendText_blank (js "   ") 0 0 0 false connected_session);
    reflexivity.
Defined.

(** ** Single-frame commands *)

(** X8.  [sendNotification] refuses a serialised notification of more than
    180 bytes before anything is written.  Otherwise the frame is the header
    [4B 00 01 00] followed by the JSON bytes, at most 184 bytes, and it goes
    to the left endpoint only. *)
Theorem sendNotification_cap (jsonBytes : Uint8Array) (m : Manager) :
  ((180 < length jsonBytes)%nat ->
   sendNotification jsonBytes m = (Rejected, m, []))
  /\ ((length jsonBytes <= 180)%nat ->
      sendNotification jsonBytes m
      = sendCommand ([0x4B; 0x00; 0x01; 0x00] ++ jsonBytes) true false m
      /\ writes_to RightArm (trace (sendNotification jsonBytes m)) = []
      /\ Forall (fun payload => (length payload <= 184)%nat)
           (written (trace (sendNotification jsonBytes m)))).
Proof.
  unfold sendNotification. split; intros Hlen.
  - replace (180 <? length jsonBytes)%nat with true
      by (symmetry; apply Nat.ltb_lt; exact Hlen).
    reflexivity.
  - replace (180 <? length jsonBytes)%nat with false
      by (symmetry; apply Nat.ltb_ge; exact Hlen).
    split; [reflexivity|]. rewrite sendCommand_left_only.
    destruct (leftTxCharacteristic m) as [c|];
      cbn [trace snd writes_to written flat_map app].
    + split; [reflexivity|]. constructor; [|constructor].
      rewrite length_app. cbn [u8_of map length]. lia.
    + split; [reflexivity|constructor].
Qed.

(** X9.  [setBrightness] never writes to the left endpoint, and the level
    byte of the frame it sends to the right one is the requested brightness
    clamped into 0..42, whatever integer is requested. *)
Theorem setBrightness_clamped (brightness : Z) (autoMode : bool) (m : Manager) :
  writes_to LeftArm (trace (setBrightness brightness autoMode m)) = []
  /\ Forall (fun payload =>
               exists level,
                 payload = [0x01; level; if autoMode then 0x01 else 0x00]
                 /\ 0 <= level <= 42
                 /\ (0 <= brightness <= 42 -> level = brightness)
                 /\ (brightness < 0 -> level = 0)
                 /\ (42 < brightness -> level = 42))
       (written (trace (setBrightness brightness autoMode m))).
Proof.
  unfold setBrightness. rewrite sendCommand_right_only.
  assert (Hframe : u8_of [COMMANDS.SET_BRIGHTNESS;
                          Z.max 0 (Z.min 42 brightness);
                          if autoMode then 0x01 else 0x00]
                   = [0x01; Z.max 0 (Z.min 42 brightness);
                      if autoMode then 0x01 else 0x00]).
  { unfold u8_of, JS.ToUint8. cbn [map]. rewrite (Z.mod_small (Z.max _ _)) by lia.
    destruct autoMode; reflexivity. }
  rewrite Hframe.
  destruct (rightTxCharacteristic m); cbn; split; try reflexivity;
    repeat constructor.
  eexists. split; [reflexivity|]. lia.
Qed.

Lemma length_u8_set (a : Uint8Array) (i : nat) (v : Z) :
  length (u8_set a i v) = length a.
Proof.
  revert i. induction a as [|b a IH]; intros [|i]; cbn; try reflexivity.
  now rewrite IH.
Qed.

Lemma u8_set_past_end (a : Uint8Array) (i : nat) (v : Z) :
  (length a <= i)%nat -> u8_set a i v = a.
Proof.
  revert i. induction a as [|b a IH]; intros [|i] Hi; cbn in *;
    try reflexivity; try lia.
  rewrite IH by lia. reflexivity.
Qed.

Lemma length_u8_blit (source target : Uint8Array) (offset : nat) :
  length (u8_blit target offset source) = length target.
Proof.
  revert target offset. induction source as [|b source IH];
    intros target offset; cbn [u8_blit]; [reflexivity|].
  rewrite IH, length_u8_set. reflexivity.
Qed.

(** X10.  The frame of [setDashboardTimeAndWeather] has 18 bytes, the length
    it declares in byte 1, and ends with the weather icon.  The stores at
    indices 18, 19 and 20 fall past its end: temperature, unit and clock
    format never reach the frame, and two calls that differ in them only
    behave alike. *)
Theorem setDashboard_drops_temperature (now : Z) (w1 w2 : WeatherData)
    (m : Manager) :
  icon w1 = icon w2 ->
  setDashboardTimeAndWeather now w1 m = setDashboardTimeAndWeather now w2 m
  /\ Forall (fun payload =>
               length payload = 18%nat
               /\ nth 1 payload 0 = 18
               /\ nth 17 payload 0 = icon w1 mod 256)
       (written (trace (setDashboardTimeAndWeather now w1 m))).
Proof.
  intros Hicon. split.
  - unfold setDashboardTimeAndWeather. cbv zeta.
    rewrite !bind_get. unfold bind, modify.
    set (c16 := u8_blit _ 9 (bigUint64_bytes now)).
    assert (Hlen16 : length c16 = 18%nat).
    { unfold c16. rewrite length_u8_blit, !length_u8_set. reflexivity. }
    assert (Hdrop : forall w,
              u8_set (u8_set (u8_set (u8_set c16 17 (icon w)) 18 (temperature w))
                        19 (if isCelsius w then 0x00 else 0x01))
                20 (if is24Hour w then 0x01 else 0x00)
              = u8_set c16 17 (icon w)).
    { intros w. set (c17 := u8_set c16 17 (icon w)).
      assert (Hlen17 : length c17 = 18%nat)
        by (unfold c17; rewrite length_u8_set; exact Hlen16).
      rewrite (u8_set_past_end c17 18) by lia.
      rewrite (u8_set_past_end c17 19) by lia.
      rewrite (u8_set_past_end c17 20) by lia. reflexivity. }
    rewrite !Hdrop, Hicon. reflexivity.
  - revert m.
    change (writes_only (fun payload =>
                           length payload = 18%nat
                           /\ nth 1 payload 0 = 18
                           /\ nth 17 payload 0 = icon w1 mod 256)
                        (setDashboardTimeAndWeather now w1)).
    unfold setDashboardTimeAndWeather. cbv zeta.
    apply writes_only_get_bind. intros m.
    apply writes_only_bind; [intros m1; constructor|]. intros _.
    apply writes_only_sendCommand.
    cbn [repeat u8_set u8_blit bigUint64_bytes map seq length nth].
    repeat split.
Qed.

Lemma setDashboard_drops_temperature_witness :
  setDashboardTimeAndWeather 1700000000123
    {| icon := 5; temperature := 21; isCelsius := true; is24Hour := true |}
    connected_session
  = setDashboardTimeAndWeather 1700000000123
      {| icon := 5; temperature := -3; isCelsius := false; is24Hour := false |}
      connected_session.
Proof.
  apply (setDashboard_drops_temperature 1700000000123
           {| icon := 5; temperature := 21; isCelsius := true; is24Hour := true |}
           {| icon := 5; temperature := -3; isCelsius := false;
              is24Hour := false |}
           connected_session).
  reflexivity.
Defined.

(** X11.  A heartbeat tick never rejects, also when an endpoint refuses the
    write: it sends [0x25] and the heartbeat counter modulo 256 to every
    endpoint present, and advances the heartbeat counter by one and nothing
    else, the frame sequence number included. *)
Theorem heartbeat_tick_swallows (m : Manager) :
  heartbeat_tick m
  = (Resolved tt,
     set_heartbeatSequence (heartbeatSequence m + 1) m,
     trace (sendCommand [0x25; heartbeatSequence m mod 256] true true m)).
Proof.
  unfold heartbeat_tick, try_catch. rewrite bind_get. unfold bind, modify.
  assert (Hframe : u8_of [COMMANDS.SEND_HEARTBEAT;
                          JS.band (heartbeatSequence m) 0xFF]
                   = [0x25; heartbeatSequence m mod 256]).
  { unfold u8_of, JS.ToUint8. cbn [map]. rewrite band_255, Z.mod_mod by lia.
    reflexivity. }
  rewrite Hframe. unfold sendCommand, trace.
  cbn [leftTxCharacteristic rightTxCharacteristic set_heartbeatSequence snd].
  destruct (forallb _ _); cbn; rewrite ?app_nil_r; reflexivity.
Qed.

(** ** EventDispatcher: what inbound notifications can and cannot do *)

Lemma set_flags_same (m : Manager) : set_flags (flags m) m = m.
Proof. destruct m. reflexivity. Qed.

Ltac known_sub_code :=
  eexists _, _; split; [reflexivity|];
  cbn; repeat split; auto.

Lemma mapTypeToCommand_effect (type : Z) (m : Manager) :
  exists label f,
    mapTypeToCommand type m
    = (Resolved label, set_flags f m,
       if (type =? 0x17) || (type =? 0x18) then trace (clearScreen m) else [])
    /\ isGlassesInBox f = isGlassesInBox (flags m)
    /\ (isInCase (flags m) = true -> isInCase f = true).
Proof.
  destruct m as [ld rd lt rt conn hb sq hs fl dc bc]. unfold mapTypeToCommand.
  destruct (Z.eqb_spec type 0x00) as [->|H00]; [known_sub_code|].
  destruct (Z.eqb_spec type 0x01) as [->|H01]; [known_sub_code|].
  destruct (Z.eqb_spec type 0x02) as [->|H02]; [known_sub_code|].
  destruct (Z.eqb_spec type 0x03) as [->|H03]; [known_sub_code|].
  destruct (Z.eqb_spec type 0x04) as [->|H04]; [known_sub_code|].
  destruct (Z.eqb_spec type 0x05) as [->|H05]; [known_sub_code|].
  destruct (Z.eqb_spec type 0x06) as [->|H06]; [known_sub_code|].
  destruct (Z.eqb_spec type 0x07) as [->|H07]; [known_sub_code|].
  destruct (Z.eqb_spec type 0x08) as [->|H08]; [known_sub_code|].
  destruct (Z.eqb_spec type 0x09) as [->|H09]; [known_sub_code|].
  destruct (Z.eqb_spec type 0x0B) as [->|H0B]; [known_sub_code|].
  destruct (Z.eqb_spec type 0x0E) as [->|H0E]; [known_sub_code|].
  destruct (Z.eqb_spec type 0x0F) as [->|H0F]; [known_sub_code|].
  destruct (Z.eqb_spec type 0x11) as [->|H11]; [known_sub_code|].
  destruct (Z.eqb_spec type 0x12) as [->|H12]; [known_sub_code|].
  destruct (Z.eqb_spec type 0x17) as [->|H17];
    [destruct lt, rt; known_sub_code|].
  destruct (Z.eqb_spec type 0x18) as [->|H18];
    [destruct lt, rt; known_sub_code|].
  destruct (Z.eqb_spec type 0x1E) as [->|H1E]; [known_sub_code|].
  destruct (Z.eqb_spec type 0x1F) as [->|H1F]; [known_sub_code|].
  destruct (Z.eqb_spec type 0x20) as [->|H20]; known_sub_code.
Qed.

Lemma written_device_callbacks (callbacks : list nat) (type : Z)
    (payload : Uint8Array) :
  written (map (fun callback => DeviceEventCallback callback type payload)
               callbacks) = [].
Proof. induction callbacks as [|cb l IH]; [reflexivity|exact IH]. Qed.

Lemma written_battery_callbacks (callbacks : list nat) (info : BatteryInfo)
    (isLeft : bool) :
  written (map (fun callback => BatteryUpdateCallback callback info isLeft)
               callbacks) = [].
Proof. induction callbacks as [|cb l IH]; [reflexivity|exact IH]. Qed.

Lemma handleDeviceEvent_run (command subCommand : Z) (rest : Uint8Array)
    (m : Manager) :
  exists f,
    handleDeviceEvent (command :: subCommand :: rest) m
    = (Resolved tt, set_flags f m,
       (if (subCommand =? 0x17) || (subCommand =? 0x18)
        then trace (clearScreen m) else [])
       ++ map (fun callback => DeviceEventCallback callback subCommand rest)
              (onDeviceEventCallbacks m))
    /\ isGlassesInBox f = isGlassesInBox (flags m)
    /\ (isInCase (flags m) = true -> isInCase f = true).
Proof.
  destruct (mapTypeToCommand_effect subCommand m)
    as [label [f [Hrun [Hbox Hcase]]]].
  exists f. split; [|split; assumption].
  unfold handleDeviceEvent. cbn [nth_error skipn].
  unfold bind at 1. rewrite Hrun. rewrite bind_get, for_each_emit.
  reflexivity.
Qed.

Lemma handleNotification_effect (bytes : Uint8Array) (isLeft : bool)
    (m : Manager) :
  exists f callbacks,
    handleNotification bytes isLeft m
    = (Resolved tt, set_flags f m,
       (if clears_screen bytes then trace (clearScreen m) else []) ++ callbacks)
    /\ written callbacks = []
    /\ isGlassesInBox f = isGlassesInBox (flags m)
    /\ (isInCase (flags m) = true -> isInCase f = true).
Proof.
  unfold handleNotification, clears_screen.
  destruct bytes as [|command bytes]; cbn [nth_error].
  { exists (flags m), []. rewrite set_flags_same. repeat split; auto. }
  destruct (Z.eqb_spec command COMMANDS.DEVICE_EVENTS) as [->|Hdev].
  - destruct bytes as [|subCommand rest].
    + exists (flags m), []. rewrite set_flags_same. repeat split; auto.
    + destruct (handleDeviceEvent_run COMMANDS.DEVICE_EVENTS subCommand rest m)
        as [f [Hrun [Hbox Hcase]]].
      exists f. eexists. split; [|split; [|split; assumption]].
      * rewrite Hrun. cbn [andb]. reflexivity.
      * apply written_device_callbacks.
  - assert (Hquiet : (if match bytes with
                         | [] => false
                         | subCommand :: _ =>
                             false && ((subCommand =? 0x17) || (subCommand =? 0x18))
                         end
                      then trace (clearScreen m) else []) = [])
      by (destruct bytes; reflexivity).
    rewrite Hquiet.
    destruct (command =? COMMANDS.GET_BATTERY).
    + unfold handleBatteryUpdate.
      destruct (length (command :: bytes) <? 4)%nat.
      * exists (flags m), []. rewrite set_flags_same. repeat split; auto.
      * rewrite bind_get, for_each_emit. exists (flags m). eexists.
        rewrite set_flags_same. split; [reflexivity|].
        split; [apply written_battery_callbacks|]. split; auto.
    + exists (flags m), []. rewrite set_flags_same. repeat split; auto.
Qed.

(** X12.  Malformed and foreign notifications are dropped without a trace: an
    empty or one-byte payload, a payload whose first byte is neither
    DEVICE_EVENTS nor GET_BATTERY, and a battery payload of fewer than 4
    bytes leave the session as it is and reach no observer. *)
Theorem handleNotification_drops (bytes : Uint8Array) (isLeft : bool)
    (m : Manager) :
  (length bytes < 2)%nat
  \/ (nth 0 bytes 0 <> COMMANDS.DEVICE_EVENTS
      /\ nth 0 bytes 0 <> COMMANDS.GET_BATTERY)
  \/ (nth 0 bytes 0 = COMMANDS.GET_BATTERY /\ (length bytes < 4)%nat) ->
  handleNotification bytes isLeft m = (Resolved tt, m, []).
Proof.
  intros Hcase. unfold handleNotification.
  destruct bytes as [|command bytes]; [reflexivity|]. cbn [nth_error nth] in *.
  destruct (Z.eqb_spec command COMMANDS.DEVICE_EVENTS) as [Hdev|Hdev].
  - unfold handleDeviceEvent.
    destruct bytes as [|subCommand rest]; [reflexivity|]. exfalso.
    destruct Hcase as [Hlen|[[Hno _]|[Hbat _]]].
    + cbn in Hlen. lia.
    + exact (Hno Hdev).
    + rewrite Hdev in Hbat. discriminate Hbat.
  - destruct (Z.eqb_spec command COMMANDS.GET_BATTERY) as [Hbat|Hbat];
      [|reflexivity].
    unfold handleBatteryUpdate.
    replace (length (command :: bytes) <? 4)%nat with true; [reflexivity|].
    symmetry. apply Nat.ltb_lt.
    destruct Hcase as [Hlen|[[_ Hno]|[_ Hlen]]];
      [cbn in *; lia | contradiction | exact Hlen].
Qed.

Lemma handleNotification_drops_witness :
  handleNotification [0x2C; 0x00; 0x01] true
    (set_callbacks [1%nat] [2%nat] connected_session)
  = (Resolved tt, set_callbacks [1%nat] [2%nat] connected_session, []).
Proof.
  apply (handleNotification_drops [0x2C; 0x00; 0x01] true
           (set_callbacks [1%nat] [2%nat] connected_session)).
  right. right. split; [reflexivity|cbn; lia].
Defined.

(** X13.  Whatever bytes arrive, handling a notification never rejects and
    changes nothing in the session but the device flags; among the flags,
    [isGlassesInBox] is never written and [isInCase] is never cleared once
    set. *)
Theorem handleNotification_touches_flags_only (bytes : Uint8Array)
    (isLeft : bool) (m : Manager) :
  outcome (handleNotification bytes isLeft m) = Resolved tt
  /\ final (handleNotification bytes isLeft m)
     = set_flags (flags (final (handleNotification bytes isLeft m))) m
  /\ isGlassesInBox (flags (final (handleNotification bytes isLeft m)))
     = isGlassesInBox (flags m)
  /\ (isInCase (flags m) = true ->
      isInCase (flags (final (handleNotification bytes isLeft m))) = true).
Proof.
  destruct (handleNotification_effect bytes isLeft m)
    as [f [callbacks [Hrun [_ [Hbox Hcase]]]]].
  rewrite Hrun. cbn [outcome final fst snd]. repeat split; assumption.
Qed.

(** X14.  The only payload that the handling of a notification can write is
    the CLEAR_SCREEN frame [0x18], and it writes nothing at all unless the
    notification is a device event with sub-code 0x17 or 0x18. *)
Theorem handleNotification_writes (bytes : Uint8Array) (isLeft : bool)
    (m : Manager) :
  Forall (fun payload => payload = [COMMANDS.CLEAR_SCREEN])
         (written (trace (handleNotification bytes isLeft m)))
  /\ (clears_screen bytes = false ->
      written (trace (handleNotification bytes isLeft m)) = []).
Proof.
  destruct (handleNotification_effect bytes isLeft m)
    as [f [callbacks [Hrun [Hquiet _]]]].
  rewrite Hrun. cbn [trace snd]. rewrite written_app, Hquiet, app_nil_r.
  split.
  - destruct (clears_screen bytes); [|constructor].
    apply (writes_only_sendCommand _ _ true true). reflexivity.
  - intros Hno. rewrite Hno. reflexivity.
Qed.

Lemma onDeviceEvent_registers (callbacks : list nat) :
  forall m,
    for_each onDeviceEvent callbacks m
    = (Resolved tt,
       set_callbacks (onDeviceEventCallbacks m ++ callbacks)
                     (onBatteryUpdateCallbacks m) m,
       []).
Proof.
  induction callbacks as [|cb callbacks IH]; intros m.
  - cbn [for_each]. rewrite app_nil_r. destruct m. reflexivity.
  - cbn [for_each]. unfold bind, onDeviceEvent at 1, modify. rewrite IH.
    cbn [onDeviceEventCallbacks onBatteryUpdateCallbacks set_callbacks].
    rewrite <- app_assoc. reflexivity.
Qed.

(** X15.  Device-event observers are called in the order in which they were
    registered, after the observers that were there before, once per
    registration and with the sub-code and the bytes that follow it. *)
Theorem observers_in_registration_order (callbacks : list nat)
    (subCommand : Z) (rest : Uint8Array) (isLeft : bool) (m : Manager) :
  trace (handleNotification (COMMANDS.DEVICE_EVENTS :: subCommand :: rest) isLeft
           (final (for_each onDeviceEvent callbacks m)))
  = (if (subCommand =? 0x17) || (subCommand =? 0x18)
     then trace (clearScreen m) else [])
    ++ map (fun callback => DeviceEventCallback callback subCommand rest)
           (onDeviceEventCallbacks m ++ callbacks).
Proof.
  rewrite onDeviceEvent_registers. cbn [final fst snd].
  unfold handleNotification. cbn [nth_error].
  change (COMMANDS.DEVICE_EVENTS =? COMMANDS.DEVICE_EVENTS) with true.
  cbv iota.
  destruct (handleDeviceEvent_run COMMANDS.DEVICE_EVENTS subCommand rest
              (set_callbacks (onDeviceEventCallbacks m ++ callbacks)
                             (onBatteryUpdateCallbacks m) m))
    as [f [Hrun _]].
  rewrite Hrun. reflexivity.
Qed.

(** ** Connection lifecycle *)

Lemma disconnect_run (m : Manager) :
  outcome (disconnect m) = Resolved tt
  /\ trace (disconnect m) = []
  /\ isConnected (final (disconnect m)) = false
  /\ heartbeatInterval (final (disconnect m)) = false
  /\ sequenceNumber (final (disconnect m)) = sequenceNumber m
  /\ heartbeatSequence (final (disconnect m)) = heartbeatSequence m
  /\ flags (final (disconnect m)) = flags m
  /\ onDeviceEventCallbacks (final (disconnect m)) = onDeviceEventCallbacks m
  /\ onBatteryUpdateCallbacks (final (disconnect m))
     = onBatteryUpdateCallbacks m.
Proof.
  destruct m as [[[[|]]|] [[[|]]|] lt rt conn [|] sq hs fl dc bc];
    cbn; repeat split.
Qed.

(** X16.  [disconnect] never rejects and never writes; whatever the devices
    answer, it leaves the session not connected with the heartbeat timer
    cancelled, and it does not touch the sequence numbers, the device flags
    or the observers. *)
Theorem disconnect_always (m : Manager) :
  outcome (disconnect m) = Resolved tt
  /\ trace (disconnect m) = []
  /\ isConnected (final (disconnect m)) = false
  /\ heartbeatInterval (final (disconnect m)) = false
  /\ sequenceNumber (final (disconnect m)) = sequenceNumber m
  /\ heartbeatSequence (final (disconnect m)) = heartbeatSequence m
  /\ flags (final (disconnect m)) = flags m
  /\ onDeviceEventCallbacks (final (disconnect m)) = onDeviceEventCallbacks m
  /\ onBatteryUpdateCallbacks (final (disconnect m))
     = onBatteryUpdateCallbacks m.
Proof. intros. eapply disconnect_run; eauto. Qed.

Lemma disconnect_idle (m : Manager) :
  idle m -> disconnect m = (Resolved tt, m, []).
Proof.
  destruct m as [ld rd lt rt conn hb sq hs fl dc bc].
  intros [Hld [Hrd [Hlt [Hrt [Hconn Hhb]]]]]. cbn in *. subst. reflexivity.
Qed.

(** X17.  When the devices accept [cancelConnection], [disconnect] leaves the
    session idle: no device, no TX characteristic, not connected, no timer.
    A second [disconnect] then changes nothing. *)
Theorem disconnect_idempotent (m : Manager) :
  match leftDevice m with Some d => cancelConnection d = true | None => True end ->
  match rightDevice m with Some d => cancelConnection d = true | None => True end ->
  idle (final (disconnect m))
  /\ disconnect (final (disconnect m)) = (Resolved tt, final (disconnect m), []).
Proof.
  intros Hl Hr.
  assert (Hidle : idle (final (disconnect m))).
  { destruct m as [[[bl]|] [[br]|] lt rt conn [|] sq hs fl dc bc];
      cbn in Hl, Hr; subst; cbn; repeat split. }
  split; [exact Hidle|]. apply disconnect_idle. exact Hidle.
Qed.

Lemma disconnect_idempotent_witness :
  idle (final (disconnect connected_session))
  /\ disconnect (final (disconnect connected_session))
     = (Resolved tt, final (disconnect connected_session), []).
Proof.
  apply (disconnect_idempotent connected_session); reflexivity.
Defined.

Lemma connect_success_run (leftDev rightDev : Device)
    (cl cr : Characteristic) (m : Manager) :
  writeWithResponse cl [0x4D; 0xFB] = true ->
  connectToGlasses (Some leftDev) (Some rightDev)
    (Discovered (Some cl)) (Discovered (Some cr)) m
  = (Resolved true,
     set_isConnected true
       (set_heartbeatInterval true
          (set_characteristics (Some cl) (Some cr)
             (set_rightDevice (Some rightDev)
                (set_leftDevice (Some leftDev) m)))),
     [Write LeftArm [0x4D; 0xFB]]).
Proof.
  intros Hinit. destruct m as [ld rd lt rt conn hb sq hs fl dc bc].
  unfold connectToGlasses, try_catch. cbn. rewrite Hinit. reflexivity.
Qed.

(** X18.  When both connection attempts resolve, both TX characteristics are
    found and the left endpoint accepts the INIT frame, [connectToGlasses]
    returns true with the session connected and the heartbeat timer armed,
    and the INIT frame [4D FB], sent to the left endpoint, is the only write
    of the whole connection. *)
Theorem connectToGlasses_success (leftDev rightDev : Device)
    (cl cr : Characteristic) (m : Manager) :
  writeWithResponse cl [0x4D; 0xFB] = true ->
  connectToGlasses (Some leftDev) (Some rightDev)
    (Discovered (Some cl)) (Discovered (Some cr)) m
  = (Resolved true,
     set_isConnected true
       (set_heartbeatInterval true
          (set_characteristics (Some cl) (Some cr)
             (set_rightDevice (Some rightDev)
                (set_leftDevice (Some leftDev) m)))),
     [Write LeftArm [0x4D; 0xFB]]).
Proof. intros. eapply connect_success_run; eauto. Qed.

Lemma connectToGlasses_success_witness :
  connectToGlasses (Some {| cancelConnection := true |})
    (Some {| cancelConnection := true |})
    (Discovered (Some accepting)) (Discovered (Some accepting)) new_manager
  = (Resolved true, connected_session, [Write LeftArm [0x4D; 0xFB]]).
Proof.
  apply (connectToGlasses_success {| cancelConnection := true |}
           {| cancelConnection := true |} accepting accepting new_manager).
  reflexivity.
Defined.

Lemma try_disconnect (body : M bool) (m : Manager) :
  try_catch body (disconnect ;; ret false) m
  = match body m with
    | (Resolved b, m1, t1) => (Resolved b, m1, t1)
    | (Rejected, m1, t1) => (Resolved false, final (disconnect m1), t1)
    end.
Proof.
  unfold try_catch. destruct (body m) as [[[b|] m1] t1]; [reflexivity|].
  destruct (disconnect_run m1) as [Ho [Ht _]].
  unfold bind. destruct (disconnect m1) as [[o2 m2] t2].
  cbn [outcome trace final fst snd] in *. subst.
  cbn. rewrite app_nil_r. reflexivity.
Qed.

(** X19.  [connectToGlasses] never rejects and never writes to the right
    endpoint.  When it returns false the session is left not connected with
    no heartbeat timer; when it returns true the session is connected and
    holds both TX characteristics. *)
Theorem connectToGlasses_outcome (leftConn rightConn : option Device)
    (leftUart rightUart : Discovery) (m : Manager) :
  exists ok,
    outcome (connectToGlasses leftConn rightConn leftUart rightUart m)
    = Resolved ok
    /\ writes_to RightArm
         (trace (connectToGlasses leftConn rightConn leftUart rightUart m)) = []
    /\ (ok = false ->
        isConnected
          (final (connectToGlasses leftConn rightConn leftUart rightUart m))
        = false
        /\ heartbeatInterval
             (final (connectToGlasses leftConn rightConn leftUart rightUart m))
           = false)
    /\ (ok = true ->
        isConnected
          (final (connectToGlasses leftConn rightConn leftUart rightUart m))
        = true
        /\ leftTxCharacteristic
             (final (connectToGlasses leftConn rightConn leftUart rightUart m))
           <> None
        /\ rightTxCharacteristic
             (final (connectToGlasses leftConn rightConn leftUart rightUart m))
           <> None).
Proof.
  unfold connectToGlasses. rewrite try_disconnect.
  destruct leftConn as [leftDev|], rightConn as [rightDev|],
    leftUart as [|[cl|]], rightUart as [|[cr|]];
    cbn;
    try (destruct (writeWithResponse cl _));
    cbn;
    match goal with
    | |- context [disconnect ?s] =>
        destruct (disconnect_run s) as [_ [_ [Hc [Hh _]]]];
        exists false; repeat split; try assumption; try discriminate
    | |- _ => exists true; repeat split; try discriminate
    end.
Qed.

(** X20.  When one of the two connection attempts fails on an idle session,
    [connectToGlasses] returns false and stores neither device: the session
    is exactly as before, so the handle of the device that did connect is
    lost and no [disconnect] can cancel that connection. *)
Theorem connectToGlasses_one_attempt_fails (leftConn rightConn : option Device)
    (leftUart rightUart : Discovery) (m : Manager) :
  idle m ->
  leftConn = None \/ rightConn = None ->
  connectToGlasses leftConn rightConn leftUart rightUart m
  = (Resolved false, m, []).
Proof.
  intros Hidle Hfail. unfold connectToGlasses. rewrite try_disconnect.
  assert (Hbody : forall k : M bool,
            (match leftConn, rightConn with
             | Some leftDev, Some rightDev =>
                 modify (set_leftDevice (Some leftDev)) ;;
                 modify (set_rightDevice (Some rightDev))
             | _, _ => throw
             end ;; k) m = (Rejected, m, [])).
  { intros k. destruct Hfail as [-> | ->]; [|destruct leftConn]; reflexivity. }
  rewrite Hbody. rewrite (disconnect_idle m Hidle). reflexivity.
Qed.

Lemma connectToGlasses_one_attempt_fails_witness :
  connectToGlasses (Some {| cancelConnection := true |}) None
    (Discovered (Some accepting)) (Discovered (Some accepting)) new_manager
  = (Resolved false, new_manager, []).
Proof.
  apply (connectToGlasses_one_attempt_fails
           (Some {| cancelConnection := true |}) None
           (Discovered (Some accepting)) (Discovered (Some accepting))
           new_manager).
  - repeat split.
  - right. reflexivity.
Defined.

(** X21.  A successful [connectToGlasses] on an idle session followed by a
    [disconnect] that both devices accept gives back the session it started
    from. *)
Theorem connect_then_disconnect (leftDev rightDev : Device)
    (cl cr : Characteristic) (m : Manager) :
  idle m ->
  cancelConnection leftDev = true -> cancelConnection rightDev = true ->
  writeWithResponse cl [0x4D; 0xFB] = true ->
  final (disconnect
           (final (connectToGlasses (Some leftDev) (Some rightDev)
                     (Discovered (Some cl)) (Discovered (Some cr)) m)))
  = m.
Proof.
  intros Hidle Hl Hr Hinit.
  rewrite (connect_success_run leftDev rightDev cl cr m Hinit).
  destruct m as [ld rd lt rt conn hb sq hs fl dc bc].
  destruct Hidle as [Hld [Hrd [Hlt [Hrt [Hconn Hhb]]]]].
  destruct leftDev as [bl], rightDev as [br]. cbn in *. subst. reflexivity.
Qed.

Lemma connect_then_disconnect_witness :
  final (disconnect
           (final (connectToGlasses (Some {| cancelConnection := true |})
                     (Some {| cancelConnection := true |})
                     (Discovered (Some accepting)) (Discovered (Some accepting))
                     new_manager)))
  = new_manager.
Proof.
  apply (connect_then_disconnect {| cancelConnection := true |}
           {| cancelConnection := true |} accepting accepting new_manager);
    [repeat split | reflexivity | reflexivity | reflexivity].
Defined.

(** ** ImageTransferEngine: the checksum input and refused writes *)

Lemma fold_left_keeps {A B : Type} (l : list B) (a : A) :
  fold_left (fun acc _ => acc) l a = a.
Proof. induction l as [|x l IH]; [reflexivity|exact IH]. Qed.

Lemma convertTo1BitBMP_blank (input : Uint8Array) :
  G2.convertTo1BitBMP input = blank_bitmap.
Proof.
  unfold G2.convertTo1BitBMP. cbv zeta. apply fold_left_keeps.
Qed.

(** X22.  [convertTo1BitBMP] copies every row into a [slice] of its output
    buffer, that is into a copy, so it returns the all-zero buffer of
    [72 * 136] bytes for every input.  Hence [showImage] behaves the same for
    any two images on any session, and the checksum frame that closes an
    accepted [sendBMPImage] of [glasses2.ts] is one fixed frame that does not
    depend on the pixels sent. *)
Theorem bitmap_checksum_ignores_image (image other : BMPImageData)
    (m : Manager) (cl cr : Characteristic) :
  G2.convertTo1BitBMP (data image) = repeat 0 (72 * 136)
  /\ showImage image m = showImage other m
  /\ (isConnected m = true ->
      width image = 576 -> height image = 136 ->
      leftTxCharacteristic m = Some cl -> rightTxCharacteristic m = Some cr ->
      accepts_all cl -> accepts_all cr ->
      trace (G2.sendBMPImage image m)
      = flat_map both_arms (G2.createBMPPackets (data image))
          ++ both_arms [0x20; 0x0D; 0x0E]
          ++ both_arms blank_checksum_frame).
Proof.
  split; [|split].
  - apply convertTo1BitBMP_blank.
  - unfold showImage. rewrite !convertTo1BitBMP_blank. reflexivity.
  - intros Hconn Hw Hh Hl Hr Hcl Hcr.
    rewrite (G2_sendBMPImage_accepted image m cl cr) by assumption.
    cbn [trace snd]. rewrite convertTo1BitBMP_blank. reflexivity.
Qed.

Lemma bitmap_checksum_ignores_image_witness :
  G2.convertTo1BitBMP (data sample_image) = repeat 0 (72 * 136)
  /\ showImage sample_image new_manager
     = showImage {| width := 1; height := 1; data := [255] |} new_manager
  /\ trace (G2.sendBMPImage sample_image connected_session)
     = flat_map both_arms (G2.createBMPPackets (data sample_image))
         ++ both_arms [0x20; 0x0D; 0x0E]
         ++ both_arms blank_checksum_frame.
Proof.
  split; [|split].
  - exact (proj1 (bitmap_checksum_ignores_image sample_image sample_image
                    new_manager accepting accepting)).
  - exact (proj1 (proj2 (bitmap_checksum_ignores_image sample_image
                           {| width := 1; height := 1; data := [255] |}
                           new_manager accepting accepting))).
  - apply (proj2 (proj2 (bitmap_checksum_ignores_image sample_image
                           sample_image connected_session
                           accepting accepting)));
      try reflexivity; intros payload; reflexivity.
Defined.

Lemma send_left_then_right_refused (payload : Uint8Array) (m : Manager)
    (cl : Characteristic) :
  leftTxCharacteristic m = Some cl ->
  writeWithResponse cl payload = false ->
  send_left_then_right payload m = (Rejected, m, [Write LeftArm payload]).
Proof.
  intros Hl Hno. unfold send_left_then_right, bind.
  rewrite sendCommand_left_only, Hl, Hno. reflexivity.
Qed.

Lemma transfer_refused {A : Type} (packets : list Uint8Array)
    (endCommand : Uint8Array) (k : M A) (m : Manager) (cl : Characteristic) :
  leftTxCharacteristic m = Some cl ->
  (forall payload, writeWithResponse cl payload = false) ->
  (for_each send_left_then_right packets ;;
   send_left_then_right endCommand ;; k) m
  = (Rejected, m, [Write LeftArm (hd endCommand packets)]).
Proof.
  intros Hl Hno. destruct packets as [|packet packets]; cbn [for_each hd].
  - unfold bind at 1. cbn [ret]. unfold bind at 1.
    rewrite (send_left_then_right_refused endCommand m cl Hl (Hno _)).
    reflexivity.
  - unfold bind at 1. unfold bind at 1.
    rewrite (send_left_then_right_refused packet m cl Hl (Hno _)).
    reflexivity.
Qed.

(** X23.  [sendBMPImage] stops at the first refused write: when the left
    endpoint refuses, the call returns false, and the one write attempted is
    the first frame to the left endpoint (the first image packet, or the end
    marker when the image has no data).  The right endpoint gets nothing and
    no end marker or checksum frame follows. *)
Theorem sendBMPImage_aborts_at_first_refusal (imageData : BMPImageData)
    (m : Manager) (cl : Characteristic) :
  isConnected m = true ->
  leftTxCharacteristic m = Some cl ->
  (forall payload, writeWithResponse cl payload = false) ->
  (width imageData = 576 -> height imageData = 136 ->
   G2.sendBMPImage imageData m
   = (Resolved false, m,
      [Write LeftArm
         (hd [0x20; 0x0D; 0x0E] (G2.createBMPPackets (data imageData)))]))
  /\ (width imageData <= 488 ->
      P2.sendBMPImage imageData m
      = (Resolved false, m,
         [Write LeftArm (hd [0x20] (P2.createBMPPackets (data imageData)))])).
Proof.
  intros Hconn Hl Hno. split.
  - intros Hw Hh. unfold G2.sendBMPImage. rewrite bind_get, Hconn, Hw, Hh.
    cbn [negb Z.eqb Pos.eqb orb]. unfold try_catch.
    rewrite (transfer_refused _ _ _ m cl Hl Hno). reflexivity.
  - intros Hw. unfold P2.sendBMPImage. rewrite bind_get, Hconn.
    replace (488 <? width imageData) with false
      by (symmetry; apply Z.ltb_ge; exact Hw).
    cbn [negb]. unfold try_catch.
    rewrite (transfer_refused _ _ _ m cl Hl Hno). reflexivity.
Qed.

Lemma sendBMPImage_aborts_at_first_refusal_witness :
  G2.sendBMPImage sample_image
    (set_characteristics (Some refusing) (Some accepting) connected_session)
  = (Resolved false,
     set_characteristics (Some refusing) (Some accepting) connected_session,
     [Write LeftArm [0x15; 0x00; 0x00; 0x1C; 0x00; 0x00; 1; 2; 3]]).
Proof.
  apply (proj1 (sendBMPImage_aborts_at_first_refusal sample_image
                  (set_characteristics (Some refusing) (Some accepting)
                     connected_session)
                  refusing eq_refl eq_refl (fun _ => eq_refl)));
    reflexivity.
Defined.

(** ** The loading animation of [glasses2.ts] *)

Lemma bind_resolved {A B : Type} (c : M A) (k : A -> M B) (m m1 : Manager)
    (a : A) (t1 : list Effect) :
  c m = (Resolved a, m1, t1) ->
  bind c k m = (outcome (k a m1), final (k a m1), t1 ++ trace (k a m1)).
Proof.
  intros Hc. unfold bind. rewrite Hc.
  destruct (k a m1) as [[o2 m2] t2]. reflexivity.
Qed.

Lemma animation_frame_run (frame : JsString) (m : Manager)
    (cl cr : Characteristic) :
  leftTxCharacteristic m = Some cl -> rightTxCharacteristic m = Some cr ->
  accepts_all cl -> accepts_all cr ->
  exists payload,
    (packet <- createTextPacket (encode frame) 0 1 0 1 ;;
     let packet := u8_set packet 4 SCREEN_STATUS.TEXT_SHOW in
     let packet := u8_set packet 5 (JS.band 100 0xFF) in
     let packet := u8_set packet 6 (JS.band (JS.sar 100 8) 0xFF) in
     let packet := u8_set packet 7 (JS.band 100 0xFF) in
     let packet := u8_set packet 8 (JS.band (JS.sar 100 8) 0xFF) in
     sendCommand packet true true) m
    = (Resolved tt, set_sequenceNumber (sequenceNumber m + 1) m,
       both_arms payload).
Proof.
  intros Hl Hr Hcl Hcr. eexists. unfold bind at 1.
  rewrite createTextPacket_run. cbv zeta.
  rewrite (sendCommand_both _ _ cl cr) by assumption.
  rewrite Hcl, Hcr. reflexivity.
Qed.

Lemma animation_round_run (m : Manager) (cl cr : Characteristic) :
  leftTxCharacteristic m = Some cl -> rightTxCharacteristic m = Some cr ->
  accepts_all cl -> accepts_all cr ->
  exists t,
    for_each (fun frame =>
      packet <- createTextPacket (encode frame) 0 1 0 1 ;;
      let packet := u8_set packet 4 SCREEN_STATUS.TEXT_SHOW in
      let packet := u8_set packet 5 (JS.band 100 0xFF) in
      let packet := u8_set packet 6 (JS.band (JS.sar 100 8) 0xFF) in
      let packet := u8_set packet 7 (JS.band 100 0xFF) in
      let packet := u8_set packet 8 (JS.band (JS.sar 100 8) 0xFF) in
      sendCommand packet true true) loading_frames m
    = (Resolved tt, set_sequenceNumber (sequenceNumber m + 4) m, t)
    /\ length (writes_to LeftArm t) = 4%nat
    /\ length (writes_to RightArm t) = 4%nat.
Proof.
  intros Hl Hr Hcl Hcr. unfold loading_frames. cbn [for_each].
  destruct (animation_frame_run [47] m cl cr Hl Hr Hcl Hcr) as [p1 H1].
  set (m1 := set_sequenceNumber (sequenceNumber m + 1) m) in *.
  destruct (animation_frame_run [45] m1 cl cr Hl Hr Hcl Hcr) as [p2 H2].
  set (m2 := set_sequenceNumber (sequenceNumber m1 + 1) m1) in *.
  destruct (animation_frame_run [92] m2 cl cr Hl Hr Hcl Hcr) as [p3 H3].
  set (m3 := set_sequenceNumber (sequenceNumber m2 + 1) m2) in *.
  destruct (animation_frame_run [124] m3 cl cr Hl Hr Hcl Hcr) as [p4 H4].
  cbv zeta in H1, H2, H3, H4. eexists. split.
  - unfold bind at 1. rewrite H1. unfold bind at 1. rewrite H2.
    unfold bind at 1. rewrite H3. unfold bind at 1. rewrite H4.
    cbn [ret app]. f_equal. f_equal.
    unfold m3, m2, m1, set_sequenceNumber. cbn. f_equal. lia.
  - split; reflexivity.
Qed.

(** X24.  [sendLoadingAnimation] does nothing, on any session, when the
    session is not connected or the count of iterations is not positive.  On
    a connected session whose endpoints accept every write it sends 4 frames
    per iteration to each endpoint and advances the sequence number by 4 per
    iteration. *)
Theorem sendLoadingAnimation_frames (iterations : Z) (m : Manager)
    (cl cr : Characteristic) :
  (isConnected m = false \/ iterations <= 0 ->
   sendLoadingAnimation iterations m = (Resolved tt, m, []))
  /\ (isConnected m = true ->
      leftTxCharacteristic m = Some cl -> rightTxCharacteristic m = Some cr ->
      accepts_all cl -> accepts_all cr ->
      outcome (sendLoadingAnimation iterations m) = Resolved tt
      /\ final (sendLoadingAnimation iterations m)
         = set_sequenceNumber
             (sequenceNumber m + 4 * Z.of_nat (Z.to_nat iterations)) m
      /\ length (writes_to LeftArm (trace (sendLoadingAnimation iterations m)))
         = (4 * Z.to_nat iterations)%nat
      /\ length (writes_to RightArm (trace (sendLoadingAnimation iterations m)))
         = (4 * Z.to_nat iterations)%nat).
Proof.
  unfold sendLoadingAnimation. rewrite bind_get.
  split.
  - intros [Hconn|Hzero].
    + rewrite Hconn. reflexivity.
    + destruct (negb (isConnected m)); [reflexivity|].
      replace (Z.to_nat iterations) with 0%nat by lia. reflexivity.
  - intros Hconn Hl Hr Hcl Hcr. rewrite Hconn. cbn [negb].
    match goal with
    | |- context [for_each ?F (seq 0 (Z.to_nat iterations)) m] =>
        assert (Haux : forall (rounds : list nat) (s : Manager),
                  leftTxCharacteristic s = Some cl ->
                  rightTxCharacteristic s = Some cr ->
                  outcome (for_each F rounds s) = Resolved tt
                  /\ final (for_each F rounds s)
                     = set_sequenceNumber
                         (sequenceNumber s + 4 * Z.of_nat (length rounds)) s
                  /\ length (writes_to LeftArm (trace (for_each F rounds s)))
                     = (4 * length rounds)%nat
                  /\ length (writes_to RightArm (trace (for_each F rounds s)))
                     = (4 * length rounds)%nat)
    end.
    { induction rounds as [|round rounds IH]; intros s Hsl Hsr.
      - cbn [for_each ret outcome final trace fst snd writes_to flat_map
             length Nat.mul].
        split; [reflexivity|]. split; [|split; reflexivity].
        change (Z.of_nat 0) with 0. rewrite Z.mul_0_r, Z.add_0_r.
        destruct s. reflexivity.
      - cbn [for_each].
        destruct (animation_round_run s cl cr Hsl Hsr Hcl Hcr)
          as [t [Hround [Hleft Hright]]].
        specialize (IH (set_sequenceNumber (sequenceNumber s + 4) s) Hsl Hsr).
        cbv zeta in Hround, IH |- *.
        rewrite (bind_resolved _ _ _ _ _ _ Hround).
        cbn [outcome final trace fst snd].
        destruct IH as [Ho [Hm [Hlt Hrt]]].
        split; [exact Ho|]. split.
        + rewrite Hm. unfold set_sequenceNumber.
          cbn [sequenceNumber length]. f_equal. lia.
        + unfold writes_to in *. rewrite !flat_map_app, !length_app.
          rewrite Hleft, Hright, Hlt, Hrt. cbn [length]. split; lia. }
    specialize (Haux (seq 0 (Z.to_nat iterations)) m Hl Hr).
    rewrite length_seq in Haux. exact Haux.
Qed.

Lemma sendLoadingAnimation_frames_witness :
  sendLoadingAnimation 5 new_manager = (Resolved tt, new_manager, [])
  /\ (outcome (sendLoadingAnimation 2 connected_session) = Resolved tt
      /\ final (sendLoadingAnimation 2 connected_session)
         = set_sequenceNumber 8 connected_session
      /\ length (writes_to LeftArm
                   (trace (sendLoadingAnimation 2 connected_session)))
         = 8%nat
      /\ length (writes_to RightArm
                   (trace (sendLoadingAnimation 2 connected_session)))
         = 8%nat).
Proof.
  split.
  - apply (proj1 (sendLoadingAnimation_frames 5 new_manager
                    accepting accepting)).
    left. reflexivity.
  - apply (proj2 (sendLoadingAnimation_frames 2 connected_session
                    accepting accepting));
      try reflexivity; intros payload; reflexivity.
Defined.
